(** * TextMeaningFinder: the hot-key dispatcher, the prompt builder and the
      presenter of [main.py], embedded in Rocq.

    The Python program is a menu-bar utility: a global keyboard listener
    tracks the held modifier keys, a trigger key starts a background task
    that copies the selection, asks a hosted model and shows the answer.

    Conventions of the embedding
    - A Python [str] is the list of its Unicode code points ([pystr]).
      String literals of the source are written as UTF-8 Rocq literals and
      decoded by [u]; the double quote is the code point [34].
    - A Python [set] of keys is a [gset key]; the [dict] [modifier_map] is a
      [gmap].
    - Calls into the operating system, the model and the thread library are
      recorded in a trace of [event]s; exceptions are values of an error
      monad with [try_except].  [os.system] raises when its command cannot
      be handed to the operating system ([os_system]).
    - [debug_print]/[print] write to the console only and are left out of
      the trace. *)

From Stdlib Require Import ZArith NArith String Ascii List Bool Lia.
From Stdlib Require Import DecimalString HexadecimalString.
From stdpp Require Import base decidable countable gmap list strings.

Set Warnings "-clear-no-such-hyp".

Open Scope Z_scope.

(* ===================================================================== *)
(** ** Python strings *)
(* ===================================================================== *)

(** A [str] as the list of its code points. *)
Abbreviation pystr := (list N).

(** Bytes of a Rocq literal. *)
Fixpoint bytes_of (s : string) : list N :=
  match s with
  | EmptyString => []
  | String a r => N_of_ascii a :: bytes_of r
  end.

(** UTF-8 decoding, used for the literals of the source only (they are
    well-formed UTF-8): 1, 2, 3 and 4 byte sequences. *)
Fixpoint utf8_decode (bs : list N) : pystr :=
  match bs with
  | [] => []
  | b :: r =>
      if (b <? 128)%N then b :: utf8_decode r
      else if (b <? 224)%N then
        match r with
        | b1 :: r1 => ((b - 192) * 64 + (b1 - 128))%N :: utf8_decode r1
        | _ => []
        end
      else if (b <? 240)%N then
        match r with
        | b1 :: b2 :: r2 =>
            ((b - 224) * 4096 + (b1 - 128) * 64 + (b2 - 128))%N
              :: utf8_decode r2
        | _ => []
        end
      else
        match r with
        | b1 :: b2 :: b3 :: r3 =>
            ((b - 240) * 262144 + (b1 - 128) * 4096
             + (b2 - 128) * 64 + (b3 - 128))%N :: utf8_decode r3
        | _ => []
        end
  end.

(** [u "..."] is the Python literal ["..."]. *)
Definition u (s : string) : pystr := utf8_decode (bytes_of s).

(** The characters the source escapes. *)
Definition DQUOTE : N := 34%N.   (* the double quote *)
Definition SQUOTE : N := 39%N.   (* the single quote *)
Definition BACKSLASH : N := 92%N.

(** [s == t] on strings. *)
Definition str_eqb (s t : pystr) : bool := bool_decide (s = t).

(** [s.replace(old, new)] for a one-character [old], the only form the
    source uses: every occurrence of [old] is replaced, left to right. *)
Fixpoint replace_char (old : N) (new : pystr) (s : pystr) : pystr :=
  match s with
  | [] => []
  | c :: r =>
      (if (c =? old)%N then new else [c]) ++ replace_char old new r
  end.

(** [str.isspace] on one code point: the white space set of CPython
    ([_PyUnicode_IsWhitespace]). *)
Definition is_space (c : N) : bool :=
  ((9 <=? c) && (c <=? 13) || (28 <=? c) && (c <=? 32)
   || (c =? 133) || (c =? 160) || (c =? 5760)
   || (8192 <=? c) && (c <=? 8202)
   || (c =? 8232) || (c =? 8233) || (c =? 8239) || (c =? 8287)
   || (c =? 12288))%N.

Fixpoint lstrip (s : pystr) : pystr :=
  match s with
  | c :: r => if is_space c then lstrip r else s
  | [] => []
  end.

Definition rstrip (s : pystr) : pystr := rev (lstrip (rev s)).

(** [s.strip()]. *)
Definition strip (s : pystr) : pystr := rstrip (lstrip s).

(* ===================================================================== *)
(** ** Keys of the keyboard library *)
(* ===================================================================== *)

Module keyboard.

(** [keyboard.Key]: the enumeration of special keys.  The source names
    four members; every other member is kept by its name. *)
Inductive Key : Type :=
| cmd
| shift
| ctrl
| alt
| other (name : string).

(** [keyboard.KeyCode]: both attributes are always present on the object
    and either may be [None]. *)
Record KeyCode : Type := mkKeyCode {
  vk : option Z;
  char : option pystr
}.

End keyboard.

(** What the listener passes to a handler: a member of [Key], a [KeyCode],
    or [None] for an unknown key. *)
Inductive key : Type :=
| KNone
| KKey (k : keyboard.Key)
| KCode (c : keyboard.KeyCode).

#[global] Instance Key_eq_dec : EqDecision keyboard.Key.
Proof. solve_decision. Defined.

#[global] Instance KeyCode_eq_dec : EqDecision keyboard.KeyCode.
Proof. solve_decision. Defined.

#[global] Instance key_eq_dec : EqDecision key.
Proof. solve_decision. Defined.

Definition Key_to_sum (k : keyboard.Key) : nat + string :=
  match k with
  | keyboard.cmd => inl 0%nat
  | keyboard.shift => inl 1%nat
  | keyboard.ctrl => inl 2%nat
  | keyboard.alt => inl 3%nat
  | keyboard.other n => inr n
  end.

Definition Key_of_sum (x : nat + string) : keyboard.Key :=
  match x with
  | inl 0%nat => keyboard.cmd
  | inl 1%nat => keyboard.shift
  | inl 2%nat => keyboard.ctrl
  | inl _ => keyboard.alt
  | inr n => keyboard.other n
  end.

#[global] Instance Key_countable : Countable keyboard.Key.
Proof.
  apply (inj_countable' Key_to_sum Key_of_sum).
  intros []; reflexivity.
Defined.

Definition key_to_sum (k : key)
  : unit + (keyboard.Key + option Z * option (list N)) :=
  match k with
  | KNone => inl tt
  | KKey s => inr (inl s)
  | KCode c => inr (inr (keyboard.vk c, keyboard.char c))
  end.

Definition key_of_sum (x : unit + (keyboard.Key + option Z * option (list N)))
  : key :=
  match x with
  | inl _ => KNone
  | inr (inl s) => KKey s
  | inr (inr (v, c)) => KCode (keyboard.mkKeyCode v c)
  end.

#[global] Instance key_countable : Countable key.
Proof.
  apply (inj_countable' key_to_sum key_of_sum).
  intros [| s | [v c]]; reflexivity.
Defined.

(** [isinstance(key, keyboard.KeyCode)]. *)
Definition isinstance_KeyCode (k : key) : bool :=
  match k with KCode _ => true | _ => false end.

(** [getattr(key, 'char')]: [None] when the attribute is missing
    ([hasattr] is false), [Some v] with the attribute's value otherwise.
    Members of [Key] are enumeration members and carry [name] and [value]
    only; [None] has neither attribute. *)
Definition getattr_char (k : key) : option (option pystr) :=
  match k with
  | KCode c => Some (keyboard.char c)
  | _ => None
  end.

Definition getattr_vk (k : key) : option (option Z) :=
  match k with
  | KCode c => Some (keyboard.vk c)
  | _ => None
  end.

(** [key.char == s] where [key.char] may be [None]. *)
Definition char_eqb (c : option pystr) (s : pystr) : bool :=
  match c with
  | Some t => str_eqb t s
  | None => false
  end.

(** [key.vk == n] and [key.vk in [0, 255]] where [key.vk] may be [None]. *)
Definition vk_eqb (v : option Z) (n : Z) : bool :=
  match v with
  | Some x => x =? n
  | None => false
  end.

Definition vk_in (v : option Z) (l : list Z) : bool :=
  existsb (vk_eqb v) l.

(* ===================================================================== *)
(** ** Configuration, mode and the application object *)
(* ===================================================================== *)

(** The module-level settings read from the environment.  [API_KEY] is
    [os.getenv("API_KEY")], which is [None] when the variable is unset;
    [SHORTCUT_MODIFIER] is the list left by [split("+")]. *)
Record Config : Type := mkConfig {
  API_KEY : option pystr;
  SHORTCUT_KEY : pystr;
  SHORTCUT_MODIFIER : list pystr
}.

Definition TRANSLATE_SHORTCUT_KEY : pystr := u ".".

(** The settings when the environment sets only the API key. *)
Definition default_config (api : option pystr) : Config :=
  {| API_KEY := api;
     SHORTCUT_KEY := u ",";
     SHORTCUT_MODIFIER := [u "cmd"; u "shift"] |}.

(** [MODE_MEANING = "meaning"], [MODE_TRANSLATE = "translate"]: the only two
    values ever stored in [current_mode]. *)
Inductive Mode : Type :=
| MODE_MEANING
| MODE_TRANSLATE.

#[global] Instance Mode_eq_dec : EqDecision Mode.
Proof. solve_decision. Defined.

(** The fields of [TextMeaningFinderApp] the handlers read and write. *)
Record App : Type := mkApp {
  current_mode : Mode;
  required_modifiers : gset key;
  current_modifiers : gset key
}.

Definition set_mode (m : Mode) (self : App) : App :=
  {| current_mode := m;
     required_modifiers := required_modifiers self;
     current_modifiers := current_modifiers self |}.

Definition set_current (s : gset key) (self : App) : App :=
  {| current_mode := current_mode self;
     required_modifiers := required_modifiers self;
     current_modifiers := s |}.

(* ===================================================================== *)
(** ** Events and the trace monad *)
(* ===================================================================== *)

(** What a started thread runs. *)
Inductive target : Type :=
| process_text_target
| query_llm_target (text : pystr).

(** What [keyboard.Controller] is asked to press: a special key or a
    character. *)
Inductive chord_key : Type :=
| ChordKey (k : keyboard.Key)
| ChordChar (c : pystr).

Inductive event : Type :=
| ESystem (command : pystr)          (* os.system(command) *)
| EThread (t : target)               (* threading.Thread(target=t).start() *)
| EPress (k : chord_key)             (* keyboard_controller.press(k) *)
| ERelease (k : chord_key)           (* keyboard_controller.release(k) *)
| ESleep (milliseconds : Z)          (* time.sleep *)
| EPaste                             (* pyperclip.paste() *)
| EGenerate (prompt : pystr)         (* self.model.generate_content(prompt) *)
| EConfigure                         (* genai.configure / GenerativeModel *)
| EListenerStart                     (* keyboard.Listener(...).start() *)
| EListenerStop                      (* self.listener.stop() *)
| ERun                               (* TextMeaningFinderApp().run() *)
| EQuit.                             (* rumps.quit_application() *)

#[global] Instance target_eq_dec : EqDecision target.
Proof. solve_decision. Defined.

#[global] Instance chord_key_eq_dec : EqDecision chord_key.
Proof. solve_decision. Defined.

#[global] Instance event_eq_dec : EqDecision event.
Proof. solve_decision. Defined.

(** An exception, kept as [str(e)]. *)
Definition exn : Type := pystr.

(** A computation: the events it performed and either the exception that
    left it or its value. *)
Definition M (A : Type) : Type := list event * (exn + A).

Definition ret {A} (a : A) : M A := ([], inr a).

Definition raise {A} (e : exn) : M A := ([], inl e).

Definition emit (ev : event) : M unit := ([ev], inr tt).

Definition bind {A B} (m : M A) (f : A -> M B) : M B :=
  match m with
  | (t, inl e) => (t, inl e)
  | (t, inr a) => let '(t', r) := f a in (t ++ t', r)
  end.

(** [try: body  except Exception as e: handler(e)]. *)
Definition try_except {A} (body : M A) (handler : exn -> M A) : M A :=
  match body with
  | (t, inl e) => let '(t', r) := handler e in (t ++ t', r)
  | (t, inr a) => (t, inr a)
  end.

(** The answer of an external call that may raise. *)
Definition external {A} (ev : event) (answer : exn + A) : M A :=
  ([ev], answer).

#[global] Instance M_ret : MRet M := @ret.
#[global] Instance M_bind : MBind M := fun A B f m => bind m f.

Definition trace {A} (m : M A) : list event := fst m.
Definition outcome {A} (m : M A) : exn + A := snd m.

(* ===================================================================== *)
(** ** The hot-key dispatcher *)
(* ===================================================================== *)

(** [modifier_map] of [setup_keyboard_listener]. *)
Definition modifier_map : gmap (list N) key :=
  <[u "cmd" := KKey keyboard.cmd]>
  (<[u "shift" := KKey keyboard.shift]>
  (<[u "ctrl" := KKey keyboard.ctrl]>
  (<[u "alt" := KKey keyboard.alt]> ∅))).

(** The loop of [setup_keyboard_listener]:
    [for mod in SHORTCUT_MODIFIER: if mod in modifier_map: add]
    ([name] stands for [mod]). *)
Fixpoint build_required (mods : list pystr) (acc : gset key) : gset key :=
  match mods with
  | [] => acc
  | name :: rest =>
      match modifier_map !! name with
      | Some k => build_required rest ({[k]} ∪ acc)
      | None => build_required rest acc
      end
  end.

(** The object after [__init__]: mode [MODE_MEANING], the required set
    built from the configuration, nothing held. *)
Definition init (cfg : Config) : App :=
  {| current_mode := MODE_MEANING;
     required_modifiers := build_required (SHORTCUT_MODIFIER cfg) ∅;
     current_modifiers := ∅ |}.

(** The guard of both handlers:
    [isinstance(key, keyboard.KeyCode) and key.vk in [0, 255]]. *)
Definition is_special_event (k : key) : bool :=
  isinstance_KeyCode k
  && match getattr_vk k with
     | Some v => vk_in v [0; 255]
     | None => false
     end.

(** Lines 206-220 of [on_key_press]: the pair
    [(is_meaning_shortcut, is_translate_shortcut)].  The outer [match] is
    [if hasattr(key, 'char')], the inner one [elif hasattr(key, 'vk')]. *)
Definition shortcut_flags (cfg : Config) (k : key) : bool * bool :=
  match getattr_char k with
  | Some ch =>
      (char_eqb ch (SHORTCUT_KEY cfg), char_eqb ch TRANSLATE_SHORTCUT_KEY)
  | None =>
      match getattr_vk k with
      | Some v =>
          if vk_eqb v 44 then (true, false)
          else if vk_eqb v 46 then (false, true)
          else (false, false)
      | None => (false, false)
      end
  end.

(** [on_key_press]: the new object and the threads started. *)
Definition on_key_press (cfg : Config) (self : App) (k : key)
  : App * list event :=
  if is_special_event k then (self, [])
  else
    let self1 :=
      if decide (k ∈ required_modifiers self)
      then set_current ({[k]} ∪ current_modifiers self) self
      else self in
    let '(is_meaning_shortcut, is_translate_shortcut) :=
      shortcut_flags cfg k in
    if decide (required_modifiers self1 ⊆ current_modifiers self1) then
      if is_meaning_shortcut then
        (set_mode MODE_MEANING self1, [EThread process_text_target])
      else if is_translate_shortcut then
        (set_mode MODE_TRANSLATE self1, [EThread process_text_target])
      else (self1, [])
    else (self1, []).

(** [on_key_release]. *)
Definition on_key_release (self : App) (k : key) : App :=
  if is_special_event k then self
  else if decide (k ∈ current_modifiers self)
       then set_current (current_modifiers self ∖ {[k]}) self
       else self.

(** A key event of the listener. *)
Inductive input : Type :=
| Press (k : key)
| Release (k : key).

Definition handle (cfg : Config) (self : App) (i : input) : App :=
  match i with
  | Press k => fst (on_key_press cfg self k)
  | Release k => on_key_release self k
  end.

(** The object after the listener delivered [evs] in order. *)
Definition run (cfg : Config) (evs : list input) : App :=
  fold_left (handle cfg) evs (init cfg).

(** The keys that are down after [evs], read off the events themselves. *)
Definition down_step (d : gset key) (i : input) : gset key :=
  match i with
  | Press k => {[k]} ∪ d
  | Release k => d ∖ {[k]}
  end.

Definition down (evs : list input) : gset key :=
  fold_left down_step evs ∅.

(** Whether a press started an action. *)
Definition fired (r : App * list event) : bool :=
  bool_decide (snd r = [EThread process_text_target]).

(* ===================================================================== *)
(** ** [os.system] *)
(* ===================================================================== *)

(** [os.system(command)] first encodes the command with the file system
    encoding (UTF-8, error handler [surrogateescape]) and then refuses a
    NUL; in both cases it raises and runs nothing.  A surrogate code point
    can be encoded only when it is one of U+DC80..U+DCFF. *)
Definition is_surrogate (c : N) : bool :=
  ((55296 <=? c) && (c <=? 57343))%N.

Definition is_escaped_byte (c : N) : bool :=
  ((56448 <=? c) && (c <=? 56575))%N.

Definition unencodable (c : N) : bool :=
  is_surrogate c && negb (is_escaped_byte c).

(** Index of the first character that cannot be encoded. *)
Fixpoint first_unencodable (s : pystr) : option nat :=
  match s with
  | [] => None
  | c :: r =>
      if unencodable c then Some 0%nat
      else match first_unencodable r with
           | Some k => Some (S k)
           | None => None
           end
  end.

(** Length of the run of surrogates [s] starts with. *)
Fixpoint surrogate_run (s : pystr) : nat :=
  match s with
  | c :: r => if is_surrogate c then S (surrogate_run r) else 0%nat
  | [] => 0%nat
  end.

Definition decimal (n : nat) : pystr :=
  bytes_of (DecimalString.NilZero.string_of_uint (Nat.to_uint n)).

Definition hexadecimal (c : N) : pystr :=
  bytes_of (HexadecimalString.NilZero.string_of_uint (N.to_hex_uint c)).

(** [str(e)] of the [UnicodeEncodeError]: the error spans from the first
    character that cannot be encoded to the end of its run of
    surrogates. *)
Definition encode_error_message (s : pystr) (k : nat) : exn :=
  let last := (k + surrogate_run (drop k s) - 1)%nat in
  if (last =? k)%nat then
    u "'utf-8' codec can't encode character '\u"
      ++ hexadecimal (nth k s 0%N)
      ++ u "' in position " ++ decimal k ++ u ": surrogates not allowed"
  else
    u "'utf-8' codec can't encode characters in position "
      ++ decimal k ++ u "-" ++ decimal last
      ++ u ": surrogates not allowed".

(** The exception [os.system(command)] raises, if any. *)
Definition os_system_error (command : pystr) : option exn :=
  match first_unencodable command with
  | Some k => Some (encode_error_message command k)
  | None =>
      if existsb (N.eqb 0) command then Some (u "embedded null byte")
      else None
  end.

(** [os.system(command)]; the exit status is not used by the source. *)
Definition os_system (command : pystr) : M unit :=
  match os_system_error command with
  | Some e => raise e
  | None => emit (ESystem command)
  end.

(** Whether [os.system] runs the command. *)
Definition accepted (command : pystr) : bool :=
  match os_system_error command with
  | Some _ => false
  | None => true
  end.

(* ===================================================================== *)
(** ** Presenter: [show_notification] and [show_result] *)
(* ===================================================================== *)

(** [s.replace('"', '\\"').replace("'", "\\'")], the escaping both
    presenters apply to the message and to the title. *)
Definition escape_quotes (s : pystr) : pystr :=
  replace_char SQUOTE [BACKSLASH; SQUOTE]
    (replace_char DQUOTE [BACKSLASH; DQUOTE] s).

(** The command of line 53, built from values already escaped. *)
Definition notification_command (message title : pystr) : pystr :=
  u "osascript -e 'display notification " ++ [DQUOTE] ++ message
    ++ [DQUOTE] ++ u " with title " ++ [DQUOTE] ++ title ++ [DQUOTE]
    ++ u "'".

(** The command of line 57. *)
Definition beep_command : pystr :=
  u "osascript -e " ++ [DQUOTE] ++ u "beep" ++ [DQUOTE].

(** The command of line 70, built from values already escaped (the
    doubled braces of the f-string are single braces; the literal ends
    with a space). *)
Definition dialog_command (message title : pystr) : pystr :=
  u "osascript -e 'display dialog " ++ [DQUOTE] ++ message ++ [DQUOTE]
    ++ u " with title " ++ [DQUOTE] ++ title ++ [DQUOTE]
    ++ u " buttons {" ++ [DQUOTE] ++ u "OK" ++ [DQUOTE]
    ++ u "} default button " ++ [DQUOTE] ++ u "OK" ++ [DQUOTE]
    ++ u " with icon note' ".

(** [show_notification(title, message, sound)]. *)
Definition show_notification (title message : pystr) (sound : bool)
  : M unit :=
  let message := escape_quotes message in
  let title := escape_quotes title in
  let cmd := notification_command message title in
  (if sound then os_system beep_command else mret tt);;
  os_system cmd.

(** [show_result(title, message)]. *)
Definition show_result (title message : pystr) : M unit :=
  try_except
    (let message := escape_quotes message in
     let title := escape_quotes title in
     let cmd := dialog_command message title in
     os_system cmd)
    (fun e =>
       show_notification
         (u "表示エラー")
         (u "結果の表示中にエラーが発生しました。")
         true).

(* ===================================================================== *)
(** ** Inference client: prompt construction and [query_llm] *)
(* ===================================================================== *)

(** The text of the translate f-string before and after [{text}]. *)
Definition translate_head : pystr := u "
                次のテキストについて、以下の2点を出力してください：
                1. 日本語訳
                2. 重要な単語や表現の類似語/同義語（英語で3-5個）

                テキスト：
                ".

Definition translate_tail : pystr := u "

                出力形式：
                【日本語訳】
                （翻訳文）

                【Similar Expressions】
                ・(synonym/related word 1)
                ・(synonym/related word 2)
                ・(synonym/related word 3)
                ".

(** The text of the explanation f-string before and after [{text}]. *)
Definition meaning_head : pystr := u "
                次のテキストの内容を、50-100文字程度の日本語で簡潔に説明してください。
                専門用語がある場合は、その短い説明も含めてください。

                テキスト：
                ".

Definition meaning_tail : pystr := u "
                ".

(** Lines 329-356 of [query_llm]: the pair [(prompt, title)] chosen by the
    mode. *)
Definition build_prompt (mode : Mode) (text : pystr) : pystr * pystr :=
  if decide (mode = MODE_TRANSLATE) then
    (translate_head ++ text ++ translate_tail, u "翻訳結果と類似表現")
  else
    (meaning_head ++ text ++ meaning_tail, u "テキストの要約").

(** The object [generate_content] returns; reading [response.text] may
    raise. *)
Record Response : Type := mkResponse {
  response_text : exn + pystr
}.

(** The hosted model, as seen by one call: it raises or returns. *)
Definition Model : Type := pystr -> exn + Response.

(** [query_llm(self, text)]. *)
Definition query_llm (model : Model) (self : App) (text : pystr) : M unit :=
  try_except
    (let '(prompt, title) := build_prompt (current_mode self) text in
     response ← external (EGenerate prompt) (model prompt);
     t ← (([], response_text response) : M pystr);
     let result := strip t in
     show_result title result)
    (fun e =>
       let error_message := e in
       show_notification
         (u "エラー")
         (u "処理中にエラーが発生しました: " ++ error_message)
         true).

(* ===================================================================== *)
(** ** Clipboard bridge: [process_text] *)
(* ===================================================================== *)

(** [process_text(self)]; [clipboard] is what [pyperclip.paste()] answers.
    The LLM thread it starts is recorded as an [EThread] event. *)
Definition process_text (clipboard : exn + pystr) : M unit :=
  let failed (e : exn) :=
    show_notification
      (u "エラー")
      (u "テキストの処理中にエラーが発生しました")
      true in
  try_except
    (try_except
       (emit (EPress (ChordKey keyboard.cmd));;
        emit (EPress (ChordChar (u "c")));;
        emit (ERelease (ChordChar (u "c")));;
        emit (ERelease (ChordKey keyboard.cmd));;
        emit (ESleep 100);;
        pasted ← external EPaste clipboard;
        let selected_text := strip pasted in
        if bool_decide (selected_text = []) then
          show_notification
            (u "テキスト未選択")
            (u "テキストを選択してからショートカットキーを押してください")
            true
        else
          let text_to_process := selected_text in
          emit (EThread (query_llm_target text_to_process)))
       failed)
    failed.

(** One triggered action from start to end: [process_text], then every
    thread it started, run in the order of starting. *)
Definition run_thread (model : Model) (self : App) (ev : event)
  : list event :=
  match ev with
  | EThread (query_llm_target text) => trace (query_llm model self text)
  | _ => []
  end.

Definition run_action (model : Model) (self : App)
  (clipboard : exn + pystr) : list event :=
  let t := trace (process_text clipboard) in
  t ++ flat_map (run_thread model self) t.

(* ===================================================================== *)
(** ** Start-up and quit *)
(* ===================================================================== *)

(** How the two constructors called by [__init__] answer. *)
Record Startup : Type := mkStartup {
  llm_setup : exn + unit;        (* genai.configure, GenerativeModel *)
  listener_setup : exn + unit    (* keyboard.Listener(...), start() *)
}.

(** [setup_llm_model]. *)
Definition setup_llm_model (env : Startup) : M unit :=
  try_except
    (external EConfigure (llm_setup env))
    (fun e =>
       show_notification
         (u "初期化エラー")
         (u "LLMモデルの初期化に失敗しました")
         true).

(** [setup_keyboard_listener]: the sets are part of [init]; the listener
    thread is what is recorded here.  The handler only prints. *)
Definition setup_keyboard_listener (env : Startup) : M unit :=
  try_except
    (external EListenerStart (listener_setup env))
    (fun e => mret tt).

(** [TextMeaningFinderApp()]. *)
Definition App_init (cfg : Config) (env : Startup) : M App :=
  setup_llm_model env;;
  setup_keyboard_listener env;;
  mret (init cfg).

(** The state of the process after the module body. *)
Inductive process : Type :=
| Exited (status : Z)
| EventLoop (self : App).

(** Truth value of [API_KEY]: [None] and the empty string are false. *)
Definition truthy (v : option pystr) : bool :=
  match v with
  | Some (_ :: _) => true
  | _ => false
  end.

(** The [__main__] block. [sys.exit(1)] ends the process with status 1. *)
Definition main (cfg : Config) (env : Startup) : list event * process :=
  if negb (truthy (API_KEY cfg)) then
    (trace
       (show_notification
          (u "設定エラー")
          (u "Google Gemini APIキーが設定されていません。.envファイルを確認してください。")
          true),
     Exited 1)
  else
    match App_init cfg env with
    | (t, inr self) => (t ++ [ERun], EventLoop self)
    | (t, inl _) => (t, Exited 1)
    end.

(** [quit_app]: [rumps.quit_application()] terminates the application
    normally, status 0.  [has_listener] is [hasattr(self, 'listener')]. *)
Definition quit_app (has_listener : bool) : list event * process :=
  ((if has_listener then [EListenerStop] else []) ++ [EQuit], Exited 0).

(* ===================================================================== *)
(** ** Concrete inputs used by the examples *)
(* ===================================================================== *)

(** A padding event that carries the comma, with both modifiers held. *)
Definition padding_comma : keyboard.KeyCode :=
  keyboard.mkKeyCode (Some 255) (Some (u ",")).

(** The object once the default modifiers are held. *)
Definition both_held : App :=
  run (default_config None)
    [Press (KKey keyboard.cmd); Press (KKey keyboard.shift)].


(** The key the listener reports for the comma key when no character is
    attached to the event: [KeyCode.from_vk(44)]. *)
Definition comma_by_code : keyboard.KeyCode :=
  keyboard.mkKeyCode (Some 44) None.

(** Likewise for the period key: [KeyCode.from_vk(46)]. *)
Definition period_by_code : keyboard.KeyCode :=
  keyboard.mkKeyCode (Some 46) None.

(** A configuration whose trigger is the letter a with the command key,
    and the event of that letter with key code 0. *)
Definition letter_config : Config :=
  {| API_KEY := Some (u "k");
     SHORTCUT_KEY := u "a";
     SHORTCUT_MODIFIER := [u "cmd"] |}.

Definition letter_a : keyboard.KeyCode :=
  keyboard.mkKeyCode (Some 0) (Some (u "a")).

Definition cmd_held : App :=
  run letter_config [Press (KKey keyboard.cmd)].

(** A clipboard that holds a space, a line feed and an ideographic
    space. *)
Definition blank_clipboard : pystr := [32; 10; 12288]%N.

(** The object right after [__init__] with the default settings. *)
Definition fresh_app : App := init (default_config None).

(** A model whose every call fails with a message that holds a NUL. *)
Definition nul_model : Model := fun _ => inl (u "bad byte " ++ [0%N]).

(** A model whose every call fails with the same message. *)
Definition failing_model : Model := fun _ => inl (u "503 'unavailable'").

(** A configuration none of whose modifier names is known. *)
Definition unknown_config : Config :=
  {| API_KEY := Some (u "k");
     SHORTCUT_KEY := u "a";
     SHORTCUT_MODIFIER := [u "command"; u "Shift"] |}.

(** The period as the listener reports it with its character. *)
Definition period_key : keyboard.KeyCode :=
  keyboard.mkKeyCode (Some 47) (Some (u ".")).

(** The comma as the listener reports it with its character. *)
Definition comma_key : keyboard.KeyCode :=
  keyboard.mkKeyCode (Some 43) (Some (u ",")).

(* ===================================================================== *)
(** ** Statements under test *)
(* ===================================================================== *)

(** The character of a key, [None] when the key has none. *)
Definition key_char (k : key) : option pystr :=
  match k with
  | KCode c => keyboard.char c
  | _ => None
  end.

(** Escaping as it is described: each double quote becomes a backslash
    and a double quote, each single quote a backslash and a single quote,
    every other character stays. *)
Definition escape_char (c : N) : pystr :=
  if (c =? DQUOTE)%N then [BACKSLASH; DQUOTE]
  else if (c =? SQUOTE)%N then [BACKSLASH; SQUOTE]
  else [c].

Definition escaped_as_described (s : pystr) : pystr :=
  flat_map escape_char s.

(** [m] occurs in [s]. *)
Definition contains (s m : pystr) : Prop :=
  exists a b, s = a ++ m ++ b.

(** White space only (the empty string included). *)
Definition all_space (s : pystr) : Prop :=
  Forall (fun c => is_space c = true) s.

(** What [query_llm] does once the prompt and the title are chosen. *)
Definition query_with (model : Model) (chosen : pystr * pystr) : M unit :=
  try_except
    (let '(prompt, title) := chosen in
     response ← external (EGenerate prompt) (model prompt);
     t ← (([], response_text response) : M pystr);
     show_result title (strip t))
    (fun e =>
       show_notification
         (u "エラー")
         (u "処理中にエラーが発生しました: " ++ e)
         true).

(** The inference call for [prompt] raises [e]: [generate_content] raises
    it, or reading the text of its response does. *)
Definition inference_raises (model : Model) (prompt : pystr) (e : exn)
  : Prop :=
  model prompt = inl e
  \/ exists r, model prompt = inr r /\ response_text r = inl e.

(** A character [os.system] lets through: not NUL, and encodable. *)
Definition passable (c : N) : bool :=
  negb (c =? 0)%N && negb (unencodable c).

(** No NUL and no surrogate code point at all. *)
Definition clean (s : pystr) : Prop :=
  Forall (fun c => c <> 0%N /\ is_surrogate c = false) s.

(** The fallback notification of [show_result]. *)
Definition display_error_command : pystr :=
  notification_command
    (u "結果の表示中にエラーが発生しました。") (u "表示エラー").

(** The modifier names [modifier_map] knows. *)
Definition recognized (name : pystr) : Prop :=
  name = u "cmd" \/ name = u "shift" \/ name = u "ctrl" \/ name = u "alt".

(** The key matches a trigger by its character. *)
Definition char_trigger_match (cfg : Config) (k : key) : Prop :=
  exists ch, key_char k = Some ch
             /\ (ch = SHORTCUT_KEY cfg \/ ch = TRANSLATE_SHORTCUT_KEY).

(** The key matches a trigger as the dispatcher is described: by its
    character, or by key code 44 or 46 when it has no character. *)
Definition described_trigger_match (cfg : Config) (k : key) : Prop :=
  match k with
  | KCode c =>
      match keyboard.char c with
      | Some ch => ch = SHORTCUT_KEY cfg \/ ch = TRANSLATE_SHORTCUT_KEY
      | None => keyboard.vk c = Some 44 \/ keyboard.vk c = Some 46
      end
  | _ => False
  end.

(** A [KeyCode] without a character. *)
Definition char_unavailable (k : key) : bool :=
  match k with
  | KCode c => match keyboard.char c with None => true | Some _ => false end
  | _ => false
  end.

(** "An action is enqueued if and only if the held set is a superset of
    the required set and the key matches a trigger", at one press. *)
Definition fires_iff_held_and_match (cfg : Config) (self : App) (k : key)
  : Prop :=
  fired (on_key_press cfg self k) = true <->
  required_modifiers self ⊆ current_modifiers self
  /\ described_trigger_match cfg k.

(** "If every configured name is unrecognized, every press of a trigger
    key fires the action", at one press. *)
Definition fires_without_modifiers (cfg : Config) (self : App) (k : key)
  : Prop :=
  (forall name, name ∈ SHORTCUT_MODIFIER cfg -> ~ recognized name) ->
  described_trigger_match cfg k ->
  fired (on_key_press cfg self k) = true.

(** The events of the copy chord, the wait and the clipboard read. *)
Definition copy_events : list event :=
  [EPress (ChordKey keyboard.cmd); EPress (ChordChar (u "c"));
   ERelease (ChordChar (u "c")); ERelease (ChordKey keyboard.cmd);
   ESleep 100; EPaste].

(** Start-up answers: everything succeeds, and both constructors fail. *)
Definition startup_ok : Startup :=
  {| llm_setup := inr tt; listener_setup := inr tt |}.

Definition startup_failing : Startup :=
  {| llm_setup := inl (u "no network");
     listener_setup := inl (u "not trusted") |}.

(* ===================================================================== *)
(** ** Menu callbacks *)
(* ===================================================================== *)

(** [switch_to_meaning_mode(self, _)]: the new object and what the call
    does. *)
Definition switch_to_meaning_mode (self : App) : App * M unit :=
  (set_mode MODE_MEANING self,
   show_notification
     (u "モード切替") (u "意味解析モードに切り替えました") false).

(** [switch_to_translate_mode(self, _)]. *)
Definition switch_to_translate_mode (self : App) : App * M unit :=
  (set_mode MODE_TRANSLATE self,
   show_notification
     (u "モード切替") (u "翻訳モードに切り替えました") false).

(** [get_translation(self, _)]: the mode is set, then [process_text] runs
    in the calling thread. *)
Definition get_translation (self : App) (clipboard : exn + pystr)
  : App * M unit :=
  (set_mode MODE_TRANSLATE self, process_text clipboard).

(** [get_meaning(self, _)]. *)
Definition get_meaning (self : App) (clipboard : exn + pystr)
  : App * M unit :=
  (set_mode MODE_MEANING self, process_text clipboard).

(* ===================================================================== *)
(** ** Further notions and inputs *)
(* ===================================================================== *)

(** The four keys [modifier_map] can produce. *)
Definition known_modifiers : gset key :=
  {[KKey keyboard.cmd; KKey keyboard.shift;
    KKey keyboard.ctrl; KKey keyboard.alt]}.

(** A double or a single quote. *)
Definition is_quote (c : N) : bool := (c =? DQUOTE)%N || (c =? SQUOTE)%N.

(** The number of quotes of a string. *)
Definition count_quotes (s : pystr) : nat :=
  length (filter (fun c => is_quote c = true) s).

(** The first and the last character of [s], if any, are not white
    space. *)
Definition trimmed (s : pystr) : Prop :=
  (forall c r, s = c :: r -> is_space c = false)
  /\ (forall r c, s = r ++ [c] -> is_space c = false).

(** A configuration whose meaning trigger is the period, the fixed
    translate trigger. *)
Definition period_config : Config :=
  {| API_KEY := Some (u "k");
     SHORTCUT_KEY := u ".";
     SHORTCUT_MODIFIER := [u "cmd"; u "shift"] |}.

(** The default modifiers written in another order, twice, and among
    unknown names. *)
Definition shuffled_config : Config :=
  {| API_KEY := None;
     SHORTCUT_KEY := u ",";
     SHORTCUT_MODIFIER := [u "shift"; u "Cmd"; u "cmd"; u "shift"; u ""] |}.

(** The comma key as reported while shift is held: the character is the
    less-than sign. *)
Definition shifted_comma : keyboard.KeyCode :=
  keyboard.mkKeyCode (Some 44) (Some (u "<")).

(** A model that answers every prompt with the same padded text. *)
Definition constant_model : Model :=
  fun _ => inr (mkResponse (inr ([32; 10] ++ u "a 'b'" ++ [10])%N)).

(** A clipboard with text between white space. *)
Definition padded_clipboard : pystr := ([12288; 32] ++ u "hello" ++ [10])%N.

(** Control and an unrelated key held together with the default
    modifiers. *)
Definition crowded_events : list input :=
  [Press (KKey keyboard.ctrl); Press (KKey keyboard.cmd);
   Press (KCode (keyboard.mkKeyCode (Some 12) (Some (u "q"))));
   Press (KKey keyboard.shift)].
(* ===================================================================== *)
(** * Properties *)
(* ===================================================================== *)

(** ** The required set *)

Lemma modifier_map_Some (name : pystr) (k : key) :
  modifier_map !! name = Some k ->
  (name = u "cmd" /\ k = KKey keyboard.cmd)
  \/ (name = u "shift" /\ k = KKey keyboard.shift)
  \/ (name = u "ctrl" /\ k = KKey keyboard.ctrl)
  \/ (name = u "alt" /\ k = KKey keyboard.alt).
Proof.
  unfold modifier_map. intros H.
  repeat (apply lookup_insert_Some in H as [[<- <-] | [_ H]]; [auto 6 |]).
  by rewrite lookup_empty in H.
Qed.

Lemma modifier_map_None (name : pystr) :
  modifier_map !! name = None <->
  name <> u "cmd" /\ name <> u "shift" /\ name <> u "ctrl" /\ name <> u "alt".
Proof.
  unfold modifier_map. rewrite !lookup_insert_None, lookup_empty.
  split; [intros ((((_ & H4) & H3) & H2) & H1) | intros (H1 & H2 & H3 & H4)];
    repeat split; congruence.
Qed.

Lemma build_required_spec (mods : list pystr) (acc : gset key) (k : key) :
  k ∈ build_required mods acc <->
  k ∈ acc \/ exists name, name ∈ mods /\ modifier_map !! name = Some k.
Proof.
  revert acc. induction mods as [| name rest IH]; intros acc; simpl.
  - split; [tauto |]. intros [H | (name & H & _)]; [done |].
    by apply elem_of_nil in H.
  - destruct (modifier_map !! name) as [k0 |] eqn:E; rewrite IH.
    + rewrite elem_of_union, elem_of_singleton. split.
      * intros [[-> | H] | (n & Hn & Hk)]; [| tauto |].
        -- right. exists name. split; [left | done].
        -- right. exists n. split; [by right | done].
      * intros [H | (n & Hn & Hk)]; [tauto |].
        apply elem_of_cons in Hn as [-> | Hn].
        -- left. left. congruence.
        -- right. eauto.
    + split.
      * intros [H | (n & Hn & Hk)]; [tauto |].
        right. exists n. split; [by right | done].
      * intros [H | (n & Hn & Hk)]; [tauto |].
        apply elem_of_cons in Hn as [-> | Hn]; [congruence |].
        right. eauto.
Qed.

(** Only members of the [Key] enumeration are ever required. *)
Lemma required_is_Key (cfg : Config) (k : key) :
  k ∈ required_modifiers (init cfg) -> exists s, k = KKey s.
Proof.
  simpl. rewrite build_required_spec.
  intros [H | (name & _ & H)]; [by apply not_elem_of_empty in H |].
  apply modifier_map_Some in H.
  destruct H as [[_ ->] | [[_ ->] | [[_ ->] | [_ ->]]]]; eauto.
Qed.

(** ** One step of each handler *)

Lemma on_key_press_required (cfg : Config) (self : App) (k : key) :
  required_modifiers (fst (on_key_press cfg self k))
  = required_modifiers self.
Proof.
  unfold on_key_press.
  destruct (is_special_event k); [done |].
  destruct (shortcut_flags cfg k) as [[] []];
    repeat (case_decide; simpl); done.
Qed.

Lemma on_key_press_current (cfg : Config) (self : App) (k : key) :
  current_modifiers (fst (on_key_press cfg self k))
  = if is_special_event k then current_modifiers self
    else if decide (k ∈ required_modifiers self)
         then {[k]} ∪ current_modifiers self
         else current_modifiers self.
Proof.
  unfold on_key_press.
  destruct (is_special_event k); [done |].
  destruct (shortcut_flags cfg k) as [[] []];
    repeat (case_decide; simpl); done.
Qed.

Lemma on_key_release_required (self : App) (k : key) :
  required_modifiers (on_key_release self k) = required_modifiers self.
Proof.
  unfold on_key_release.
  destruct (is_special_event k); [done |]. by case_decide.
Qed.

Lemma on_key_release_current (self : App) (k : key) :
  current_modifiers (on_key_release self k)
  = if is_special_event k then current_modifiers self
    else current_modifiers self ∖ {[k]}.
Proof.
  unfold on_key_release.
  destruct (is_special_event k); [done |].
  case_decide; simpl; [done | set_solver].
Qed.

(** ** Sequences of events *)

Lemma run_snoc (cfg : Config) (evs : list input) (i : input) :
  run cfg (evs ++ [i]) = handle cfg (run cfg evs) i.
Proof. unfold run. by rewrite fold_left_app. Qed.

Lemma down_snoc (evs : list input) (i : input) :
  down (evs ++ [i]) = down_step (down evs) i.
Proof. unfold down. by rewrite fold_left_app. Qed.

Lemma run_required (cfg : Config) (evs : list input) :
  required_modifiers (run cfg evs) = required_modifiers (init cfg).
Proof.
  induction evs as [| i evs IH] using rev_ind; [done |].
  rewrite run_snoc. destruct i as [k | k]; simpl.
  - by rewrite on_key_press_required.
  - by rewrite on_key_release_required.
Qed.

Lemma required_not_special (cfg : Config) (k : key) :
  k ∈ required_modifiers (init cfg) -> is_special_event k = false.
Proof. intros [s ->]%required_is_Key. reflexivity. Qed.

Lemma run_current (cfg : Config) (evs : list input) :
  current_modifiers (run cfg evs)
  = required_modifiers (init cfg) ∩ down evs.
Proof.
  induction evs as [| i evs IH] using rev_ind.
  - unfold run, down. simpl. set_solver.
  - rewrite run_snoc, down_snoc. destruct i as [k | k]; simpl.
    + rewrite on_key_press_current, run_required, IH.
      destruct (is_special_event k) eqn:E.
      * assert (k ∉ required_modifiers (init cfg)).
        { intros H%required_not_special. congruence. }
        set_solver.
      * case_decide; set_solver.
    + rewrite on_key_release_current, IH.
      destruct (is_special_event k) eqn:E; [| set_solver].
      assert (k ∉ required_modifiers (init cfg)).
      { intros H%required_not_special. congruence. }
      set_solver.
Qed.

(** ** The model on concrete inputs *)

Example escape_both_quotes :
  escape_quotes (u "it's " ++ [DQUOTE] ++ u "ok" ++ [DQUOTE])
  = u "it\'s \" ++ [DQUOTE] ++ u "ok\" ++ [DQUOTE].
Proof. reflexivity. Qed.

Example strip_keeps_inner_space :
  strip ([12288; 32] ++ u "a b" ++ [10; 9])%N = u "a b".
Proof. reflexivity. Qed.

Example os_system_refuses_lone_surrogate :
  os_system (u "ab" ++ [57343; 56448; 55297]%N ++ u "z")
  = ([],
     inl (u "'utf-8' codec can't encode characters in position 2-4: surrogates not allowed")).
Proof. vm_compute. reflexivity. Qed.

Example os_system_takes_escaped_byte :
  os_system ([56448]%N ++ u "ok") = ([ESystem ([56448]%N ++ u "ok")], inr tt).
Proof. vm_compute. reflexivity. Qed.

Example show_result_falls_back_on_nul :
  show_result (u "t") (u "a" ++ [0%N])
  = ([ESystem beep_command; ESystem display_error_command], inr tt).
Proof. vm_compute. reflexivity. Qed.

Example period_with_both_modifiers_translates :
  on_key_press (default_config None) both_held (KCode period_key)
  = (set_mode MODE_TRANSLATE both_held, [EThread process_text_target]).
Proof. vm_compute. reflexivity. Qed.

Example comma_after_shift_released_does_nothing :
  snd (on_key_press (default_config None)
         (on_key_release both_held (KKey keyboard.shift))
         (KCode comma_key))
  = [].
Proof. vm_compute. reflexivity. Qed.

Example right_command_is_not_tracked :
  current_modifiers
    (run (default_config None) [Press (KKey (keyboard.other "cmd_r"))])
  = ∅.
Proof. vm_compute. reflexivity. Qed.

(** ** Held modifiers (C2) and ignored events (C8) *)

(** C2. After any sequence of press and release events handled by
    [on_key_press] and [on_key_release], starting from the freshly built
    object: the held set is a subset of the required set (a key outside
    the configured set is never recorded, whatever is pressed next); right
    after the release of a key that key is not in the held set; and the
    held set is exactly the set of configured modifiers that are down
    according to the events. *)
Theorem held_modifiers_track_configured_keys
  (cfg : Config) (evs : list input) :
  current_modifiers (run cfg evs) ⊆ required_modifiers (run cfg evs)
  /\ (forall k : key,
        k ∉ required_modifiers (init cfg) ->
        k ∉ current_modifiers (run cfg (evs ++ [Press k])))
  /\ (forall k : key, k ∉ current_modifiers (run cfg (evs ++ [Release k])))
  /\ current_modifiers (run cfg evs)
     = required_modifiers (init cfg) ∩ down evs.
Proof.
  repeat split.
  - rewrite run_required, run_current. set_solver.
  - intros k Hk. rewrite run_current. set_solver.
  - intros k. rewrite run_current, down_snoc. simpl. set_solver.
  - apply run_current.
Qed.

(** C8. A press or a release whose key is a [KeyCode] with key code 0 or
    255 leaves the object as it was (held set and mode included) and
    starts no action. *)
Theorem padding_events_are_ignored
  (cfg : Config) (self : App) (c : keyboard.KeyCode) :
  keyboard.vk c = Some 0 \/ keyboard.vk c = Some 255 ->
  on_key_press cfg self (KCode c) = (self, [])
  /\ on_key_release self (KCode c) = self.
Proof.
  intros H.
  assert (E : is_special_event (KCode c) = true).
  { unfold is_special_event. simpl. destruct H as [-> | ->]; reflexivity. }
  unfold on_key_press, on_key_release. by rewrite E.
Qed.

Lemma padding_events_are_ignored_witness :
  on_key_press (default_config None) both_held (KCode padding_comma)
  = (both_held, [])
  /\ on_key_release both_held (KCode padding_comma) = both_held.
Proof.
  apply (padding_events_are_ignored (default_config None) both_held
           padding_comma).
  right. reflexivity.
Defined.

(** ** Trigger classification and firing (C1, C3, C9) *)

(** The flags depend on the character alone: a key that has the [char]
    attribute takes the first branch whatever the attribute holds, and a
    key without it has no [vk] attribute either. *)
Lemma shortcut_flags_by_char (cfg : Config) (k : key) :
  shortcut_flags cfg k
  = (char_eqb (key_char k) (SHORTCUT_KEY cfg),
     char_eqb (key_char k) TRANSLATE_SHORTCUT_KEY).
Proof. destruct k as [| s | c]; reflexivity. Qed.

Lemma char_eqb_true (c : option pystr) (s : pystr) :
  char_eqb c s = true <-> c = Some s.
Proof.
  destruct c as [t |]; simpl; [| split; discriminate].
  unfold str_eqb. rewrite bool_decide_eq_true.
  split; congruence.
Qed.

Lemma flags_char_trigger_match (cfg : Config) (k : key) :
  fst (shortcut_flags cfg k) || snd (shortcut_flags cfg k) = true
  <-> char_trigger_match cfg k.
Proof.
  rewrite shortcut_flags_by_char. simpl.
  rewrite orb_true_iff, !char_eqb_true. unfold char_trigger_match.
  split.
  - intros [H | H]; eexists; (split; [exact H |]); tauto.
  - intros (ch & -> & [-> | ->]); tauto.
Qed.

(** What a press does, in one equation. *)
Lemma on_key_press_fired (cfg : Config) (self : App) (k : key) :
  fired (on_key_press cfg self k)
  = negb (is_special_event k)
    && bool_decide (required_modifiers self
                    ⊆ current_modifiers (fst (on_key_press cfg self k)))
    && (fst (shortcut_flags cfg k) || snd (shortcut_flags cfg k)).
Proof.
  unfold on_key_press.
  destruct (is_special_event k); [done |].
  destruct (shortcut_flags cfg k) as [[] []]; simpl;
    repeat (case_decide; simpl);
    rewrite ?bool_decide_eq_true_2, ?bool_decide_eq_false_2 by done; done.
Qed.

Lemma on_key_press_events (cfg : Config) (self : App) (k : key) :
  snd (on_key_press cfg self k)
  = if fired (on_key_press cfg self k) then [EThread process_text_target]
    else [].
Proof.
  unfold on_key_press.
  destruct (is_special_event k); [done |].
  destruct (shortcut_flags cfg k) as [[] []]; simpl;
    repeat (case_decide; simpl); done.
Qed.

Lemma on_key_press_mode (cfg : Config) (self : App) (k : key) :
  current_mode (fst (on_key_press cfg self k))
  = if fired (on_key_press cfg self k) then
      if fst (shortcut_flags cfg k) then MODE_MEANING else MODE_TRANSLATE
    else current_mode self.
Proof.
  unfold on_key_press.
  destruct (is_special_event k); [done |].
  destruct (shortcut_flags cfg k) as [[] []]; simpl;
    repeat (case_decide; simpl); done.
Qed.

(** A key with a character is never a required modifier, so pressing it
    leaves the held set as it was. *)
Lemma trigger_press_keeps_held (cfg : Config) (evs : list input) (k : key) :
  char_trigger_match cfg k ->
  current_modifiers (fst (on_key_press cfg (run cfg evs) k))
  = current_modifiers (run cfg evs).
Proof.
  intros (ch & Hch & _). rewrite on_key_press_current.
  destruct (is_special_event k); [done |].
  case_decide as Hin; [| done].
  rewrite run_required in Hin.
  apply required_is_Key in Hin as [s ->]. discriminate.
Qed.

Lemma described_match_with_char (cfg : Config) (k : key) :
  char_unavailable k = false ->
  described_trigger_match cfg k <-> char_trigger_match cfg k.
Proof.
  unfold char_trigger_match.
  destruct k as [| s | [v [ch |]]]; simpl; try discriminate; intros _.
  - split; [tauto | intros (ch & H & _); discriminate].
  - split; [tauto | intros (ch & H & _); discriminate].
  - split; [eauto |]. intros (ch' & [= <-] & H). exact H.
Qed.

(** The firing condition at a press that is not a padding event. *)
Lemma press_fires_iff
  (cfg : Config) (evs : list input) (k : key) :
  is_special_event k = false ->
  fired (on_key_press cfg (run cfg evs) k) = true <->
  required_modifiers (run cfg evs) ⊆ current_modifiers (run cfg evs)
  /\ char_trigger_match cfg k.
Proof.
  intros Hsp. rewrite on_key_press_fired, Hsp. simpl.
  rewrite andb_true_iff, bool_decide_eq_true, flags_char_trigger_match.
  split; intros [H1 H2]; (split; [| done]).
  - by rewrite trigger_press_keeps_held in H1.
  - by rewrite trigger_press_keeps_held.
Qed.

(** C1, as the code has it.  For every press delivered after any
    sequence of events, no action starts while the held set is a proper
    subset of the required set.  For every press that is not a padding
    event (a [KeyCode] with key code 0 or 255) and whose key is not a
    [KeyCode] without a character: an action is started if and only if the
    held set is a superset of the required set and the key matches the
    meaning or the translate trigger; exactly one thread is started when
    it fires and none otherwise; the mode is set to that of the matched
    trigger when it fires and is left alone otherwise. *)
Theorem trigger_fires_iff_modifiers_held_and_key_matches
  (cfg : Config) (evs : list input) (k : key) :
  (current_modifiers (run cfg evs) ⊂ required_modifiers (run cfg evs) ->
   fired (on_key_press cfg (run cfg evs) k) = false)
  /\ (is_special_event k = false ->
      char_unavailable k = false ->
      (fired (on_key_press cfg (run cfg evs) k) = true <->
         required_modifiers (run cfg evs) ⊆ current_modifiers (run cfg evs)
         /\ described_trigger_match cfg k)
      /\ snd (on_key_press cfg (run cfg evs) k)
         = (if fired (on_key_press cfg (run cfg evs) k)
            then [EThread process_text_target] else [])
      /\ current_mode (fst (on_key_press cfg (run cfg evs) k))
         = (if fired (on_key_press cfg (run cfg evs) k)
            then if char_eqb (key_char k) (SHORTCUT_KEY cfg)
                 then MODE_MEANING else MODE_TRANSLATE
            else current_mode (run cfg evs))).
Proof.
  split.
  - intros [_ Hproper]. apply not_true_is_false. intros E.
    destruct (is_special_event k) eqn:Hsp.
    { rewrite on_key_press_fired, Hsp in E. discriminate E. }
    apply (press_fires_iff cfg evs k Hsp) in E as [Hsub _]. contradiction.
  - intros Hsp Hch.
    pose proof (press_fires_iff cfg evs k Hsp) as Hiff.
    split; [| split].
    + rewrite Hiff. by rewrite described_match_with_char.
    + apply on_key_press_events.
    + rewrite on_key_press_mode, shortcut_flags_by_char. done.
Qed.

Lemma trigger_fires_iff_modifiers_held_and_key_matches_witness :
  fired (on_key_press (default_config None) both_held (KCode comma_key))
  = true.
Proof.
  apply (proj2 (trigger_fires_iff_modifiers_held_and_key_matches
                  (default_config None)
                  [Press (KKey keyboard.cmd); Press (KKey keyboard.shift)]
                  (KCode comma_key))); [reflexivity | reflexivity |].
  split; [| left; reflexivity].
  apply (bool_decide_unpack _). vm_compute. exact I.
Defined.

(** C1, as stated, fails: with the command key required and held, the
    press of the letter a, whose event carries key code 0 and the
    configured trigger character, starts nothing. *)
Lemma padding_guard_blocks_matching_trigger :
  ~ fires_iff_held_and_match letter_config cmd_held (KCode letter_a).
Proof.
  unfold fires_iff_held_and_match. intros [_ H].
  assert (E : fired (on_key_press letter_config cmd_held (KCode letter_a))
              = false) by reflexivity.
  rewrite E in H. enough (false = true) by discriminate.
  apply H. split.
  - apply (bool_decide_unpack _). vm_compute. exact I.
  - simpl. left. reflexivity.
Qed.

(** C3, the code at the failing input.  A comma or period event without a
    character is a [KeyCode] whose [char] attribute is [None]: it takes the
    character branch, compares [None] with the trigger characters, and is
    classified as neither trigger, so the press starts nothing even with
    both modifiers held.  No key at all reaches the key-code branch: the
    flags are those of the character whatever the key. *)
Theorem key_code_fallback_is_never_taken :
  shortcut_flags (default_config None) (KCode comma_by_code) = (false, false)
  /\ shortcut_flags (default_config None) (KCode period_by_code)
     = (false, false)
  /\ on_key_press (default_config None) both_held (KCode comma_by_code)
     = (both_held, [])
  /\ on_key_press (default_config None) both_held (KCode period_by_code)
     = (both_held, [])
  /\ (forall (cfg : Config) (k : key),
        shortcut_flags cfg k
        = (char_eqb (key_char k) (SHORTCUT_KEY cfg),
           char_eqb (key_char k) TRANSLATE_SHORTCUT_KEY)).
Proof.
  split; [reflexivity |]. split; [reflexivity |].
  split; [vm_compute; reflexivity |]. split; [vm_compute; reflexivity |].
  apply shortcut_flags_by_char.
Qed.

Lemma modifier_map_Some_recognized (name : pystr) (k : key) :
  modifier_map !! name = Some k -> recognized name.
Proof.
  intros H%modifier_map_Some. unfold recognized.
  destruct H as [[-> _] | [[-> _] | [[-> _] | [-> _]]]]; tauto.
Qed.

Lemma required_init_spec (cfg : Config) (k : key) :
  k ∈ required_modifiers (init cfg) <->
  exists name, name ∈ SHORTCUT_MODIFIER cfg /\ recognized name
               /\ modifier_map !! name = Some k.
Proof.
  simpl. rewrite build_required_spec. split.
  - intros [H | (name & Hn & Hk)]; [by apply not_elem_of_empty in H |].
    exists name. eauto using modifier_map_Some_recognized.
  - intros (name & Hn & _ & Hk). eauto.
Qed.

(** C9, as the code has it.  The required set holds exactly the keys of
    the configured names that are one of cmd, shift, ctrl, alt; the other
    names leave no trace.  If no configured name is recognized the
    required set is empty, the held set stays empty whatever is pressed,
    and every press of a trigger key that is not a padding event (key
    code 0 or 255) and carries its character starts the action. *)
Theorem unrecognized_modifier_names_are_dropped (cfg : Config) :
  (forall k : key,
      k ∈ required_modifiers (init cfg) <->
      exists name, name ∈ SHORTCUT_MODIFIER cfg /\ recognized name
                   /\ modifier_map !! name = Some k)
  /\ ((forall name, name ∈ SHORTCUT_MODIFIER cfg -> ~ recognized name) ->
      required_modifiers (init cfg) = ∅
      /\ forall (evs : list input) (k : key),
          is_special_event k = false ->
          char_unavailable k = false ->
          described_trigger_match cfg k ->
          current_modifiers (run cfg evs) = ∅
          /\ fired (on_key_press cfg (run cfg evs) k) = true).
Proof.
  split; [apply required_init_spec |].
  intros Hun.
  assert (Hreq : required_modifiers (init cfg) = ∅).
  { apply set_eq. intros k. rewrite required_init_spec. split.
    - intros (name & Hn & Hr & _). by apply Hun in Hn.
    - intros H. by apply not_elem_of_empty in H. }
  split; [exact Hreq |].
  intros evs k Hsp Hch Hm.
  assert (Hcur : current_modifiers (run cfg evs) = ∅).
  { rewrite run_current, Hreq. set_solver. }
  split; [exact Hcur |].
  apply (press_fires_iff cfg evs k Hsp).
  split; [| by apply described_match_with_char].
  rewrite run_required, Hreq. set_solver.
Qed.

Lemma unrecognized_modifier_names_are_dropped_witness :
  current_modifiers (run unknown_config []) = ∅
  /\ fired (on_key_press unknown_config (run unknown_config [])
              (KCode period_key)) = true.
Proof.
  apply (proj2 (unrecognized_modifier_names_are_dropped unknown_config)).
  - intros name Hn Hr. unfold recognized in Hr.
    apply elem_of_cons in Hn as [-> | Hn].
    { destruct Hr as [H | [H | [H | H]]]; discriminate H. }
    apply elem_of_cons in Hn as [-> | Hn].
    { destruct Hr as [H | [H | [H | H]]]; discriminate H. }
    by apply elem_of_nil in Hn.
  - reflexivity.
  - reflexivity.
  - right. reflexivity.
Defined.

(** C9, as stated, fails: with no recognized modifier name and the letter
    a as trigger, the press of that letter, whose event carries key code
    0, starts nothing. *)
Lemma padding_guard_blocks_trigger_without_modifiers :
  ~ fires_without_modifiers unknown_config (init unknown_config)
      (KCode letter_a).
Proof.
  unfold fires_without_modifiers. intros H.
  enough (false = true) by discriminate.
  change false
    with (fired (on_key_press unknown_config (init unknown_config)
                   (KCode letter_a))).
  apply H.
  - intros name Hn Hr. unfold recognized in Hr.
    apply elem_of_cons in Hn as [-> | Hn].
    { destruct Hr as [H1 | [H1 | [H1 | H1]]]; discriminate H1. }
    apply elem_of_cons in Hn as [-> | Hn].
    { destruct Hr as [H1 | [H1 | [H1 | H1]]]; discriminate H1. }
    by apply elem_of_nil in Hn.
  - simpl. left. reflexivity.
Qed.

(** ** Presenter (C10) *)

Lemma replace_char_app (old : N) (new s t : pystr) :
  replace_char old new (s ++ t)
  = replace_char old new s ++ replace_char old new t.
Proof.
  induction s as [| c r IH]; simpl; [done |].
  by rewrite IH, app_assoc.
Qed.

Lemma escape_quotes_cons (c : N) (r : pystr) :
  escape_quotes (c :: r) = escape_char c ++ escape_quotes r.
Proof.
  unfold escape_quotes, escape_char. simpl.
  rewrite replace_char_app. f_equal.
  unfold DQUOTE, SQUOTE, BACKSLASH.
  destruct (N.eqb_spec c 34) as [-> | Hd]; [reflexivity |].
  simpl. by rewrite app_nil_r.
Qed.

Lemma escape_quotes_described (s : pystr) :
  escape_quotes s = escaped_as_described s.
Proof.
  induction s as [| c r IH]; [reflexivity |].
  rewrite escape_quotes_cons, IH. reflexivity.
Qed.

Lemma escape_quotes_app (s t : pystr) :
  escape_quotes s ++ escape_quotes t = escape_quotes (s ++ t).
Proof.
  rewrite !escape_quotes_described. unfold escaped_as_described.
  by rewrite flat_map_app.
Qed.

Lemma os_system_accepted (command : pystr) :
  accepted command = true -> os_system command = ([ESystem command], inr tt).
Proof.
  unfold accepted, os_system.
  destruct (os_system_error command); [discriminate | reflexivity].
Qed.

Lemma os_system_refused (command : pystr) (e : exn) :
  os_system_error command = Some e -> os_system command = ([], inl e).
Proof. unfold os_system. intros ->. reflexivity. Qed.

Lemma beep_accepted : accepted beep_command = true.
Proof. reflexivity. Qed.

Lemma show_notification_trace (title message : pystr) (sound : bool) :
  accepted (notification_command (escape_quotes message)
              (escape_quotes title)) = true ->
  show_notification title message sound
  = ((if sound then [ESystem beep_command] else [])
       ++ [ESystem (notification_command (escape_quotes message)
                      (escape_quotes title))],
     inr tt).
Proof.
  intros H. unfold show_notification.
  rewrite (os_system_accepted _ H).
  destruct sound; [rewrite (os_system_accepted _ beep_accepted) |];
    reflexivity.
Qed.

Lemma show_notification_refused
  (title message : pystr) (sound : bool) (e : exn) :
  os_system_error (notification_command (escape_quotes message)
                     (escape_quotes title)) = Some e ->
  show_notification title message sound
  = ((if sound then [ESystem beep_command] else []), inl e).
Proof.
  intros H. unfold show_notification.
  rewrite (os_system_refused _ e H).
  destruct sound; [rewrite (os_system_accepted _ beep_accepted) |];
    reflexivity.
Qed.

Lemma show_notification_events (title message : pystr) (sound : bool) :
  trace (show_notification title message sound)
  = (if sound then [ESystem beep_command] else [])
      ++ (if accepted (notification_command (escape_quotes message)
                         (escape_quotes title))
          then [ESystem (notification_command (escape_quotes message)
                           (escape_quotes title))]
          else []).
Proof.
  destruct (accepted _) eqn:E.
  - by rewrite show_notification_trace.
  - unfold accepted in E.
    destruct (os_system_error _) as [e |] eqn:Ee; [| discriminate E].
    rewrite (show_notification_refused _ _ _ e Ee).
    unfold trace. simpl. by rewrite app_nil_r.
Qed.

Lemma show_result_trace (title message : pystr) :
  show_result title message
  = ((if accepted (dialog_command (escape_quotes message)
                     (escape_quotes title))
      then [ESystem (dialog_command (escape_quotes message)
                       (escape_quotes title))]
      else [ESystem beep_command; ESystem display_error_command]),
     inr tt).
Proof.
  unfold show_result, try_except.
  destruct (accepted _) eqn:E.
  - by rewrite (os_system_accepted _ E).
  - unfold accepted in E.
    destruct (os_system_error _) as [e |] eqn:Ee; [| discriminate E].
    rewrite (os_system_refused _ e Ee). reflexivity.
Qed.

(** C10. The value both presenters put into the command for the title and
    for the message is the argument with every double quote replaced by a
    backslash and a double quote and every single quote by a backslash and
    a single quote; the notification command and the dialog command are
    fixed text around these two values and nothing else of the arguments.
    [show_notification] hands this command to [os.system] (after the beep,
    if asked for); [show_result] hands the dialog command to [os.system]
    and, when [os.system] refuses it, shows the fixed display-error
    notification instead. *)
Theorem presenters_embed_escaped_title_and_message
  (title message : pystr) (sound : bool) :
  escape_quotes title = escaped_as_described title
  /\ escape_quotes message = escaped_as_described message
  /\ (let command :=
        u "osascript -e 'display notification " ++ [DQUOTE]
          ++ escaped_as_described message ++ [DQUOTE]
          ++ u " with title " ++ [DQUOTE]
          ++ escaped_as_described title ++ [DQUOTE] ++ u "'" in
      trace (show_notification title message sound)
      = (if sound then [ESystem beep_command] else [])
          ++ (if accepted command then [ESystem command] else []))
  /\ (let command :=
        u "osascript -e 'display dialog " ++ [DQUOTE]
          ++ escaped_as_described message ++ [DQUOTE]
          ++ u " with title " ++ [DQUOTE]
          ++ escaped_as_described title ++ [DQUOTE]
          ++ u " buttons {" ++ [DQUOTE] ++ u "OK" ++ [DQUOTE]
          ++ u "} default button " ++ [DQUOTE] ++ u "OK" ++ [DQUOTE]
          ++ u " with icon note' " in
      trace (show_result title message)
      = if accepted command then [ESystem command]
        else [ESystem beep_command;
              ESystem
                (u "osascript -e 'display notification " ++ [DQUOTE]
                 ++ u "結果の表示中にエラーが発生しました。" ++ [DQUOTE]
                 ++ u " with title " ++ [DQUOTE]
                 ++ u "表示エラー" ++ [DQUOTE] ++ u "'")]).
Proof.
  split; [apply escape_quotes_described |].
  split; [apply escape_quotes_described |].
  rewrite <- !escape_quotes_described. cbv zeta. split.
  - rewrite show_notification_events.
    unfold notification_command. reflexivity.
  - rewrite show_result_trace.
    unfold dialog_command, display_error_command, notification_command.
    reflexivity.
Qed.

(** ** Prompt construction (C4) *)

Lemma query_llm_query_with (model : Model) (self : App) (text : pystr) :
  query_llm model self text
  = query_with model (build_prompt (current_mode self) text).
Proof.
  unfold query_llm, query_with.
  destruct (build_prompt (current_mode self) text) as [prompt title].
  reflexivity.
Qed.

(** C4. In translate mode the prompt is the fixed translate text, given
    here in full, with the input text in its place, unchanged; it holds
    the two section markers after the input text.  In meaning mode the
    prompt is the fixed explanation text, given here in full, around the
    same input text.  The dialog titles are the two fixed titles, the two
    prompts differ for every text, and [query_llm] depends on the mode
    through the chosen prompt and dialog title only. *)
Theorem prompt_template_is_chosen_by_mode (text : pystr) :
  build_prompt MODE_TRANSLATE text
  = (u "
                次のテキストについて、以下の2点を出力してください：
                1. 日本語訳
                2. 重要な単語や表現の類似語/同義語（英語で3-5個）

                テキスト：
                "
       ++ text
       ++ u "

                出力形式：
                【日本語訳】
                （翻訳文）

                【Similar Expressions】
                ・(synonym/related word 1)
                ・(synonym/related word 2)
                ・(synonym/related word 3)
                ",
     u "翻訳結果と類似表現")
  /\ (exists a b c,
        fst (build_prompt MODE_TRANSLATE text)
        = a ++ text ++ b ++ u "【日本語訳】" ++ c
            ++ u "【Similar Expressions】" ++ u "
                ・(synonym/related word 1)
                ・(synonym/related word 2)
                ・(synonym/related word 3)
                ")
  /\ build_prompt MODE_MEANING text
     = (u "
                次のテキストの内容を、50-100文字程度の日本語で簡潔に説明してください。
                専門用語がある場合は、その短い説明も含めてください。

                テキスト：
                "
          ++ text
          ++ u "
                ",
        u "テキストの要約")
  /\ fst (build_prompt MODE_TRANSLATE text)
     <> fst (build_prompt MODE_MEANING text)
  /\ (forall (model : Model) (self : App),
        query_llm model self text
        = query_with model (build_prompt (current_mode self) text)).
Proof.
  split; [reflexivity |].
  split.
  { assert (E : translate_tail
                = take 40 translate_tail ++ u "【日本語訳】"
                    ++ take 40 (drop 46 translate_tail)
                    ++ u "【Similar Expressions】" ++ u "
                ・(synonym/related word 1)
                ・(synonym/related word 2)
                ・(synonym/related word 3)
                ").
    { vm_compute. reflexivity. }
    exists translate_head, (take 40 translate_tail),
      (take 40 (drop 46 translate_tail)).
    exact (f_equal (fun x => translate_head ++ text ++ x) E). }
  split; [reflexivity |].
  split.
  - change (translate_head ++ text ++ translate_tail
            <> meaning_head ++ text ++ meaning_tail).
    intros H. apply (f_equal (take 30)) in H.
    rewrite !take_app_le in H by (vm_compute; lia).
    vm_compute in H. discriminate H.
  - intros model self. apply query_llm_query_with.
Qed.

(** ** Clipboard bridge (C5) *)

Lemma lstrip_nil_iff (s : pystr) : lstrip s = [] <-> all_space s.
Proof.
  unfold all_space. induction s as [| c r IH]; simpl.
  - split; [constructor | done].
  - destruct (is_space c) eqn:E.
    + rewrite IH. split; [by constructor |]. by inversion 1.
    + split; [done |]. inversion 1; congruence.
Qed.

Lemma lstrip_head (s : pystr) (c : N) (r : pystr) :
  lstrip s = c :: r -> is_space c = false.
Proof.
  induction s as [| a t IH]; simpl; [done |].
  destruct (is_space a) eqn:E; [exact IH |]. congruence.
Qed.

Lemma strip_nil_iff (s : pystr) : strip s = [] <-> all_space s.
Proof.
  unfold strip, rstrip. split.
  - intros H. apply lstrip_nil_iff.
    apply (f_equal (@rev N)) in H. rewrite rev_involutive in H. simpl in H.
    apply lstrip_nil_iff in H. unfold all_space in H.
    apply Forall_rev in H. rewrite rev_involutive in H.
    destruct (lstrip s) as [| c r] eqn:E; [done |].
    apply lstrip_head in E. inversion H; congruence.
  - intros H%lstrip_nil_iff. rewrite H. reflexivity.
Qed.

Lemma process_text_pasted (clip : pystr) :
  process_text (inr clip)
  = (copy_events
       ++ (if bool_decide (strip clip = []) then
             [ESystem beep_command;
              ESystem
                (notification_command
                   (u "テキストを選択してからショートカットキーを押してください")
                   (u "テキスト未選択"))]
           else [EThread (query_llm_target (strip clip))]),
     inr tt).
Proof.
  unfold process_text, copy_events.
  unfold mbind, M_bind, bind, try_except, emit, external.
  cbn -[strip u show_notification beep_command notification_command].
  destruct (bool_decide (strip clip = [])); reflexivity.
Qed.

Lemma ESystem_inj (a b : pystr) : ESystem a = ESystem b -> a = b.
Proof. congruence. Qed.

Lemma dialog_is_not_beep (m t : pystr) : dialog_command m t <> beep_command.
Proof.
  intros H. apply (f_equal (take 14)) in H. vm_compute in H. discriminate H.
Qed.

Lemma dialog_is_not_notification (m t m' t' : pystr) :
  dialog_command m t <> notification_command m' t'.
Proof.
  intros H. apply (f_equal (take 23)) in H. vm_compute in H. discriminate H.
Qed.

(** C5. When the text read from the clipboard is empty or white space
    only, the task is: the copy chord, the wait, the clipboard read, the
    beep and the "no selection" notification; nothing else.  No thread is
    started, so the model is never called, and no dialog is shown. *)
Theorem blank_selection_aborts_before_inference
  (model : Model) (self : App) (clip : pystr) :
  all_space clip ->
  process_text (inr clip)
  = (copy_events
       ++ [ESystem beep_command;
           ESystem
             (notification_command
                (u "テキストを選択してからショートカットキーを押してください")
                (u "テキスト未選択"))],
     inr tt)
  /\ run_action model self (inr clip) = trace (process_text (inr clip))
  /\ (forall prompt, EGenerate prompt ∉ run_action model self (inr clip))
  /\ (forall t, EThread t ∉ run_action model self (inr clip))
  /\ (forall m t, ESystem (dialog_command m t)
                  ∉ run_action model self (inr clip)).
Proof.
  intros Hblank. apply strip_nil_iff in Hblank.
  assert (Hp : process_text (inr clip)
    = (copy_events
       ++ [ESystem beep_command;
           ESystem
             (notification_command
                (u "テキストを選択してからショートカットキーを押してください")
                (u "テキスト未選択"))],
     inr tt)).
  { rewrite process_text_pasted, Hblank. reflexivity. }
  assert (Hr : run_action model self (inr clip)
               = trace (process_text (inr clip))).
  { unfold run_action. rewrite Hp. unfold trace, copy_events. simpl.
    reflexivity. }
  split; [exact Hp |]. split; [exact Hr |].
  rewrite Hr, Hp. unfold trace, copy_events. simpl.
  split; [| split].
  - intros prompt H.
    repeat (apply elem_of_cons in H as [H | H]; [discriminate H |]).
    by apply elem_of_nil in H.
  - intros t H.
    repeat (apply elem_of_cons in H as [H | H]; [discriminate H |]).
    by apply elem_of_nil in H.
  - intros m t H.
    repeat (apply elem_of_cons in H as [H | H]; [discriminate H |]).
    by apply elem_of_nil in H.
Qed.

Lemma blank_selection_aborts_before_inference_witness :
  all_space blank_clipboard
  /\ run_action failing_model fresh_app (inr blank_clipboard)
     = copy_events
         ++ [ESystem beep_command;
             ESystem
               (notification_command
                  (u "テキストを選択してからショートカットキーを押してください")
                  (u "テキスト未選択"))].
Proof.
  assert (Hblank : all_space blank_clipboard).
  { unfold all_space, blank_clipboard. repeat constructor. }
  split; [exact Hblank |].
  destruct (blank_selection_aborts_before_inference failing_model fresh_app
              blank_clipboard Hblank) as (Hp & Hr & _).
  rewrite Hr, Hp. reflexivity.
Defined.

(** ** What [os.system] accepts *)

Lemma accepted_forallb (s : pystr) : accepted s = forallb passable s.
Proof.
  unfold accepted, os_system_error.
  induction s as [| c r IH]; [reflexivity |].
  cbn [first_unencodable existsb forallb]. unfold passable at 1.
  destruct (unencodable c); cbn [negb].
  { by rewrite andb_false_r. }
  rewrite andb_true_r, <- IH.
  destruct (first_unencodable r); [by rewrite andb_false_r |].
  rewrite (N.eqb_sym 0 c).
  by destruct (c =? 0)%N, (existsb (N.eqb 0) r).
Qed.

Lemma accepted_app (a b : pystr) :
  accepted (a ++ b) = accepted a && accepted b.
Proof. rewrite !accepted_forallb. apply forallb_app. Qed.

Lemma accepted_escape_quotes (s : pystr) :
  accepted (escape_quotes s) = accepted s.
Proof.
  induction s as [| c r IH]; [reflexivity |].
  rewrite escape_quotes_cons, accepted_app, IH.
  change (c :: r) with ([c] ++ r). rewrite accepted_app. f_equal.
  unfold escape_char.
  destruct (c =? DQUOTE)%N eqn:E1.
  { apply N.eqb_eq in E1. by rewrite E1. }
  destruct (c =? SQUOTE)%N eqn:E2.
  { apply N.eqb_eq in E2. by rewrite E2. }
  reflexivity.
Qed.

Ltac fixed_text_is_accepted :=
  repeat match goal with
    | |- context [accepted (u ?l)] =>
        replace (accepted (u l)) with true by (vm_compute; reflexivity)
    | |- context [accepted [DQUOTE]] =>
        replace (accepted [DQUOTE]) with true by (vm_compute; reflexivity)
    end.

Lemma accepted_notification (message title : pystr) :
  accepted (notification_command message title)
  = accepted message && accepted title.
Proof.
  unfold notification_command. rewrite !accepted_app.
  fixed_text_is_accepted. simpl. by rewrite !andb_true_r.
Qed.

Lemma accepted_dialog (message title : pystr) :
  accepted (dialog_command message title)
  = accepted message && accepted title.
Proof.
  unfold dialog_command. rewrite !accepted_app.
  fixed_text_is_accepted. simpl. by rewrite !andb_true_r.
Qed.

Lemma clean_accepted (s : pystr) : clean s -> accepted s = true.
Proof.
  rewrite accepted_forallb. unfold clean. intros H.
  apply forallb_forall. intros c Hc%list_elem_of_In.
  rewrite Forall_forall in H. destruct (H c Hc) as [H0 Hs].
  unfold passable, unencodable. rewrite Hs. simpl.
  rewrite andb_true_r. apply negb_true_iff. by apply N.eqb_neq.
Qed.

(** ** Inference errors (C6) *)

Lemma query_with_raises (model : Model) (prompt title : pystr) (e : exn) :
  inference_raises model prompt e ->
  query_with model (prompt, title)
  = (EGenerate prompt
       :: trace (show_notification
                   (u "エラー")
                   (u "処理中にエラーが発生しました: " ++ e)
                   true),
     outcome (show_notification
                (u "エラー")
                (u "処理中にエラーが発生しました: " ++ e)
                true)).
Proof.
  intros [H | (r & H & Hr)]; unfold query_with;
    unfold mbind, M_bind, bind, try_except, external; rewrite H, ?Hr;
    destruct (show_notification _ _ _) as [t [e' | []]]; reflexivity.
Qed.

Lemma error_notification_accepted (e : exn) :
  accepted e = true ->
  accepted
    (notification_command
       (escape_quotes (u "処理中にエラーが発生しました: " ++ e))
       (escape_quotes (u "エラー"))) = true.
Proof.
  intros H.
  rewrite accepted_notification, !accepted_escape_quotes, accepted_app, H.
  fixed_text_is_accepted. reflexivity.
Qed.

(** C6, the code at the failing input.  The model raises with a message
    that holds a NUL.  The [except] clause of [query_llm] calls
    [show_notification], which beeps and then hands the notification
    command, NUL included, to [os.system]; [os.system] raises
    [ValueError] (embedded null byte).  That exception is raised inside
    the handler: no notification is shown and the exception leaves
    [query_llm]. *)
Theorem nul_in_error_message_escapes_the_handler :
  query_llm nul_model fresh_app (u "hello")
  = ([EGenerate (fst (build_prompt MODE_MEANING (u "hello")));
      ESystem beep_command],
     inl (u "embedded null byte")).
Proof. vm_compute. reflexivity. Qed.

(** ** Start-up (C7) *)

Lemma App_init_returns (cfg : Config) (env : Startup) :
  exists t, App_init cfg env = (t, inr (init cfg))
            /\ EConfigure ∈ t /\ EListenerStart ∈ t.
Proof.
  unfold App_init, setup_llm_model, setup_keyboard_listener.
  unfold mbind, M_bind, bind, try_except, external, mret, M_ret, ret.
  destruct (llm_setup env) as [e1 | []], (listener_setup env) as [e2 | []];
    rewrite ?show_notification_trace by reflexivity; simpl;
    eexists; (split; [reflexivity |]); split; set_solver.
Qed.



(* ===================================================================== *)
(** * Further properties of the dispatcher *)
(* ===================================================================== *)

Ltac by_computation := apply (bool_decide_unpack _); vm_compute; exact I.

Lemma shortcut_flags_no_char (cfg : Config) (k : key) :
  key_char k = None -> shortcut_flags cfg k = (false, false).
Proof. intros H. rewrite shortcut_flags_by_char, H. reflexivity. Qed.

Lemma not_fired_without_char (cfg : Config) (self : App) (k : key) :
  key_char k = None -> fired (on_key_press cfg self k) = false.
Proof.
  intros H. rewrite on_key_press_fired, (shortcut_flags_no_char cfg k H).
  simpl. apply andb_false_r.
Qed.

Lemma run_required_Key (cfg : Config) (evs : list input) (k : key) :
  k ∈ required_modifiers (run cfg evs) -> exists s, k = KKey s.
Proof. rewrite run_required. apply required_is_Key. Qed.

(** X1. Pressing a special key (a member of [Key]: a modifier, an arrow,
    ...) never starts an action and never changes the mode, whatever is
    held and even when it is the press that completes the required set;
    an unknown key ([None]) changes nothing at all. *)
Theorem special_keys_never_start_an_action
  (cfg : Config) (evs : list input) (s : keyboard.Key) :
  snd (on_key_press cfg (run cfg evs) (KKey s)) = []
  /\ current_mode (fst (on_key_press cfg (run cfg evs) (KKey s)))
     = current_mode (run cfg evs)
  /\ on_key_press cfg (run cfg evs) KNone = (run cfg evs, []).
Proof.
  split; [| split].
  - rewrite on_key_press_events, not_fired_without_char; done.
  - rewrite on_key_press_mode, not_fired_without_char; done.
  - unfold on_key_press. simpl.
    destruct (decide (KNone ∈ required_modifiers (run cfg evs)))
      as [Hin | Hin].
    { apply run_required_Key in Hin as [s' Hs]. discriminate Hs. }
    by case_decide.
Qed.

(** X2. There is no repeat suppression: when a press starts an action,
    the same press delivered again right after it (key auto-repeat)
    starts another one. *)
Theorem repeated_press_fires_again (cfg : Config) (self : App) (k : key) :
  fired (on_key_press cfg self k) = true ->
  fired (on_key_press cfg (fst (on_key_press cfg self k)) k) = true.
Proof.
  rewrite !on_key_press_fired, !andb_true_iff, !bool_decide_eq_true.
  intros [[Hsp Hsub] Hfl]. repeat split; [done | | done].
  rewrite on_key_press_required.
  rewrite (on_key_press_current cfg (fst (on_key_press cfg self k))).
  destruct (is_special_event k); [done |].
  case_decide; set_solver.
Qed.

Lemma repeated_press_fires_again_witness :
  fired (on_key_press (default_config None)
           (fst (on_key_press (default_config None) both_held
                   (KCode comma_key)))
           (KCode comma_key)) = true.
Proof.
  apply (repeated_press_fires_again (default_config None) both_held
           (KCode comma_key)).
  vm_compute. reflexivity.
Defined.

Lemma period_trigger_press_mode (cfg : Config) (self : App) (k : key) :
  SHORTCUT_KEY cfg = TRANSLATE_SHORTCUT_KEY ->
  current_mode self = MODE_MEANING ->
  current_mode (fst (on_key_press cfg self k)) = MODE_MEANING.
Proof.
  intros Hk Hm. rewrite on_key_press_mode.
  destruct (fired (on_key_press cfg self k)) eqn:E; [| exact Hm].
  rewrite on_key_press_fired, !andb_true_iff in E.
  destruct E as [_ E]. rewrite shortcut_flags_by_char in *. simpl in *.
  rewrite Hk in *.
  by destruct (char_eqb (key_char k) TRANSLATE_SHORTCUT_KEY).
Qed.

(** X3. The meaning trigger is tested first: when [SHORTCUT_KEY] is
    configured as the period, which is also the fixed translate trigger,
    no sequence of key events ever puts the object in translate mode. *)
Theorem period_as_meaning_key_disables_translate_hotkey
  (cfg : Config) (evs : list input) :
  SHORTCUT_KEY cfg = TRANSLATE_SHORTCUT_KEY ->
  current_mode (run cfg evs) = MODE_MEANING.
Proof.
  intros Hk. induction evs as [| i evs IH] using rev_ind; [done |].
  rewrite run_snoc. destruct i as [k | k]; simpl.
  - by apply period_trigger_press_mode.
  - unfold on_key_release. destruct (is_special_event k); [done |].
    by case_decide.
Qed.

Lemma period_as_meaning_key_disables_translate_hotkey_witness :
  current_mode
    (run period_config
       [Press (KKey keyboard.cmd); Press (KKey keyboard.shift);
        Press (KCode period_key)])
  = MODE_MEANING.
Proof.
  apply (period_as_meaning_key_disables_translate_hotkey period_config).
  reflexivity.
Defined.

(** X4. Press then release of a special key: afterwards the key is not
    held, every other held key is as before, and the required set and the
    mode are untouched. *)
Theorem press_then_release_of_special_key
  (cfg : Config) (self : App) (s : keyboard.Key) :
  current_modifiers
    (on_key_release (fst (on_key_press cfg self (KKey s))) (KKey s))
  = current_modifiers self ∖ {[KKey s]}
  /\ required_modifiers
       (on_key_release (fst (on_key_press cfg self (KKey s))) (KKey s))
     = required_modifiers self
  /\ current_mode
       (on_key_release (fst (on_key_press cfg self (KKey s))) (KKey s))
     = current_mode self.
Proof.
  split; [| split].
  - rewrite on_key_release_current, on_key_press_current. simpl.
    case_decide; set_solver.
  - by rewrite on_key_release_required, on_key_press_required.
  - transitivity (current_mode (fst (on_key_press cfg self (KKey s)))).
    + unfold on_key_release. simpl. by case_decide.
    + rewrite on_key_press_mode, not_fired_without_char; done.
Qed.

(** X5. The required set depends only on which of the four known names
    occur in [SHORTCUT_MODIFIER]: order, repetitions and unknown names
    (wrong case included) make no difference. *)
Theorem required_set_ignores_order_and_repeats (cfg1 cfg2 : Config) :
  (forall name, recognized name ->
     (name ∈ SHORTCUT_MODIFIER cfg1 <-> name ∈ SHORTCUT_MODIFIER cfg2)) ->
  required_modifiers (init cfg1) = required_modifiers (init cfg2).
Proof.
  intros H. apply set_eq. intros k. rewrite !required_init_spec.
  split; intros (name & Hn & Hr & Hk); exists name;
    (split; [by apply H | done]).
Qed.

Lemma required_set_ignores_order_and_repeats_witness :
  required_modifiers (init shuffled_config)
  = required_modifiers (init (default_config None)).
Proof.
  apply (required_set_ignores_order_and_repeats shuffled_config
           (default_config None)).
  intros name [-> | [-> | [-> | ->]]]; by_computation.
Defined.

(** X6. Only the four keys command, shift, control and alt can be
    required, so at most four; and only those can ever be held. *)
Theorem only_known_modifiers_are_tracked (cfg : Config) (evs : list input) :
  required_modifiers (init cfg) ⊆ known_modifiers
  /\ current_modifiers (run cfg evs) ⊆ known_modifiers
  /\ (size (required_modifiers (init cfg)) <= 4)%nat.
Proof.
  assert (H : required_modifiers (init cfg) ⊆ known_modifiers).
  { intros k (name & _ & _ & Hk)%required_init_spec.
    apply modifier_map_Some in Hk. unfold known_modifiers.
    destruct Hk as [[_ ->] | [[_ ->] | [[_ ->] | [_ ->]]]]; set_solver. }
  split; [exact H |]. split.
  - rewrite run_current. set_solver.
  - apply subseteq_size in H.
    replace (size known_modifiers) with 4%nat in H by (vm_compute; done).
    exact H.
Qed.

(** X7. A key that carries a character other than the two trigger
    characters never starts an action and leaves the object as it was,
    whatever is held and whatever its key code (44 and 46 included). *)
Theorem other_character_never_fires
  (cfg : Config) (evs : list input) (c : keyboard.KeyCode) (ch : pystr) :
  keyboard.char c = Some ch ->
  ch <> SHORTCUT_KEY cfg ->
  ch <> TRANSLATE_SHORTCUT_KEY ->
  on_key_press cfg (run cfg evs) (KCode c) = (run cfg evs, []).
Proof.
  intros Hc H1 H2. unfold on_key_press.
  destruct (is_special_event (KCode c)); [done |].
  destruct (decide (KCode c ∈ required_modifiers (run cfg evs)))
    as [Hin | Hin].
  { apply run_required_Key in Hin as [s Hs]. discriminate Hs. }
  rewrite shortcut_flags_by_char. simpl. rewrite Hc. simpl.
  unfold str_eqb. rewrite !bool_decide_eq_false_2 by done.
  by case_decide.
Qed.

Lemma other_character_never_fires_witness :
  on_key_press (default_config None) both_held (KCode shifted_comma)
  = (both_held, []).
Proof.
  apply (other_character_never_fires (default_config None)
           [Press (KKey keyboard.cmd); Press (KKey keyboard.shift)]
           shifted_comma (u "<")).
  - reflexivity.
  - vm_compute. discriminate.
  - vm_compute. discriminate.
Defined.

(** X8. In terms of the keys that are down: a press that is not a padding
    event starts an action exactly when every required modifier is down
    and the key carries a trigger character.  Other keys that are down at
    the same time make no difference. *)
Theorem fires_iff_required_modifiers_are_down
  (cfg : Config) (evs : list input) (k : key) :
  is_special_event k = false ->
  fired (on_key_press cfg (run cfg evs) k) = true <->
  required_modifiers (init cfg) ⊆ down evs /\ char_trigger_match cfg k.
Proof.
  intros Hsp. rewrite (press_fires_iff cfg evs k Hsp).
  rewrite run_required, run_current.
  split; intros [H1 H2]; (split; [set_solver | done]).
Qed.

Lemma fires_iff_required_modifiers_are_down_witness :
  fired (on_key_press (default_config None)
           (run (default_config None) crowded_events) (KCode comma_key))
  = true.
Proof.
  apply (fires_iff_required_modifiers_are_down (default_config None)
           crowded_events (KCode comma_key)); [reflexivity |].
  split; [by_computation |].
  exists (u ","). split; [reflexivity | left; reflexivity].
Defined.

Lemma fired_press_state (cfg : Config) (self : App) (k : key) :
  k ∉ required_modifiers self ->
  fired (on_key_press cfg self k) = true ->
  fst (on_key_press cfg self k)
  = set_mode (if fst (shortcut_flags cfg k)
              then MODE_MEANING else MODE_TRANSLATE) self.
Proof.
  intros Hin. unfold on_key_press.
  destruct (is_special_event k); [done |].
  rewrite decide_False by done.
  destruct (shortcut_flags cfg k) as [[] []]; simpl;
    case_decide; simpl; done.
Qed.

(** X9. A hot key leaves the object exactly as the menu item of the same
    action does: after a press that starts an action the object is the
    one [get_meaning] (meaning trigger) or [get_translation] (translate
    trigger) produces, the held modifiers included. *)
Theorem hotkey_sets_the_object_like_the_menu
  (cfg : Config) (evs : list input) (k : key) (clipboard : exn + pystr) :
  fired (on_key_press cfg (run cfg evs) k) = true ->
  fst (on_key_press cfg (run cfg evs) k)
  = if char_eqb (key_char k) (SHORTCUT_KEY cfg)
    then fst (get_meaning (run cfg evs) clipboard)
    else fst (get_translation (run cfg evs) clipboard).
Proof.
  intros Hf.
  assert (Hin : k ∉ required_modifiers (run cfg evs)).
  { intros [s ->]%run_required_Key.
    by rewrite not_fired_without_char in Hf. }
  rewrite (fired_press_state cfg _ k Hin Hf), shortcut_flags_by_char.
  simpl. by destruct (char_eqb (key_char k) (SHORTCUT_KEY cfg)).
Qed.

Lemma hotkey_sets_the_object_like_the_menu_witness :
  fst (on_key_press (default_config None)
         (run (default_config None) crowded_events) (KCode period_key))
  = fst (get_translation (run (default_config None) crowded_events)
           (inr padded_clipboard)).
Proof.
  apply (hotkey_sets_the_object_like_the_menu (default_config None)
           crowded_events (KCode period_key) (inr padded_clipboard)).
  vm_compute. reflexivity.
Defined.

(** X10. The mode changes only when a press starts an action: if the mode
    after an event differs from the mode before it, the event is a press
    and it fired.  Releases and presses that do not fire keep the mode. *)
Theorem mode_changes_only_when_a_press_fires
  (cfg : Config) (evs : list input) (i : input) :
  current_mode (run cfg (evs ++ [i])) <> current_mode (run cfg evs) ->
  exists k, i = Press k
            /\ fired (on_key_press cfg (run cfg evs) k) = true.
Proof.
  rewrite run_snoc. destruct i as [k | k]; simpl.
  - rewrite on_key_press_mode.
    destruct (fired (on_key_press cfg (run cfg evs) k)) eqn:E; [eauto |].
    intros H. by destruct H.
  - intros H. destruct H. unfold on_key_release.
    destruct (is_special_event k); [done |]. by case_decide.
Qed.

Lemma mode_changes_only_when_a_press_fires_witness :
  exists k, Press (KCode period_key) = Press k
            /\ fired (on_key_press (default_config None)
                        (run (default_config None)
                           [Press (KKey keyboard.cmd);
                            Press (KKey keyboard.shift)]) k) = true.
Proof.
  apply (mode_changes_only_when_a_press_fires (default_config None)
           [Press (KKey keyboard.cmd); Press (KKey keyboard.shift)]
           (Press (KCode period_key))).
  vm_compute. discriminate.
Defined.

(* ===================================================================== *)
(** * Further properties of the clipboard bridge and the client *)
(* ===================================================================== *)

Lemma lstrip_split (s : pystr) :
  exists a, s = a ++ lstrip s /\ all_space a.
Proof.
  induction s as [| c r (a & Ha & Hs)]; simpl.
  - exists []. split; [done | constructor].
  - destruct (is_space c) eqn:E.
    + exists (c :: a). split; [simpl; congruence | by constructor].
    + exists []. split; [done | constructor].
Qed.

Lemma rstrip_split (s : pystr) :
  exists b, s = rstrip s ++ b /\ all_space b.
Proof.
  unfold rstrip. destruct (lstrip_split (rev s)) as (a & Ha & Hs).
  exists (rev a). split.
  - rewrite <- rev_app_distr, <- Ha. by rewrite rev_involutive.
  - unfold all_space in *. by apply Forall_rev.
Qed.

Lemma strip_split (s : pystr) :
  exists a b, s = a ++ strip s ++ b /\ all_space a /\ all_space b.
Proof.
  destruct (lstrip_split s) as (a & Ha & Hsa).
  destruct (rstrip_split (lstrip s)) as (b & Hb & Hsb).
  exists a, b. unfold strip. split; [congruence | done].
Qed.

Lemma strip_trimmed (s : pystr) : trimmed (strip s).
Proof.
  split.
  - intros c r H.
    destruct (rstrip_split (lstrip s)) as (b & Hb & _).
    fold (strip s) in Hb. rewrite H in Hb. simpl in Hb.
    by apply lstrip_head in Hb.
  - intros r c H. unfold strip, rstrip in H.
    apply (f_equal (@rev N)) in H.
    rewrite rev_involutive, rev_app_distr in H. simpl in H.
    by apply lstrip_head in H.
Qed.

(** X11. When the clipboard holds more than white space, [process_text]
    performs the copy chord, the wait and the read, and starts exactly one
    LLM thread; no notification is shown.  The text given to the thread is
    the clipboard text without its leading and trailing white space: it is
    not empty, and neither its first nor its last character is white
    space. *)
Theorem selection_is_trimmed_and_given_to_one_thread (clip : pystr) :
  ~ all_space clip ->
  process_text (inr clip)
  = (copy_events ++ [EThread (query_llm_target (strip clip))], inr tt)
  /\ strip clip <> []
  /\ trimmed (strip clip)
  /\ exists a b, clip = a ++ strip clip ++ b /\ all_space a /\ all_space b.
Proof.
  intros H. rewrite <- strip_nil_iff in H.
  split; [| split; [exact H | split]].
  - rewrite process_text_pasted, bool_decide_eq_false_2 by done. reflexivity.
  - apply strip_trimmed.
  - apply strip_split.
Qed.

Lemma selection_is_trimmed_and_given_to_one_thread_witness :
  process_text (inr padded_clipboard)
  = (copy_events ++ [EThread (query_llm_target (strip padded_clipboard))],
     inr tt).
Proof.
  apply (selection_is_trimmed_and_given_to_one_thread padded_clipboard).
  unfold all_space, padded_clipboard. by_computation.
Defined.


Lemma query_with_answers
  (model : Model) (prompt title : pystr) (r : Response) (t : pystr) :
  model prompt = inr r ->
  response_text r = inr t ->
  query_with model (prompt, title)
  = (EGenerate prompt :: trace (show_result title (strip t)), inr tt).
Proof.
  intros H Hr. unfold query_with.
  unfold mbind, M_bind, bind, try_except, external. rewrite H, Hr.
  rewrite show_result_trace. reflexivity.
Qed.

Lemma titles_have_no_quotes (mode : Mode) (text : pystr) :
  escape_quotes (snd (build_prompt mode text))
  = snd (build_prompt mode text).
Proof. destruct mode; reflexivity. Qed.

Lemma query_llm_answers
  (model : Model) (self : App) (text : pystr) (r : Response) (t : pystr) :
  model (fst (build_prompt (current_mode self) text)) = inr r ->
  response_text r = inr t ->
  query_llm model self text
  = (EGenerate (fst (build_prompt (current_mode self) text))
       :: (if accepted
                (dialog_command (escape_quotes (strip t))
                   (snd (build_prompt (current_mode self) text)))
           then [ESystem
                   (dialog_command (escape_quotes (strip t))
                      (snd (build_prompt (current_mode self) text)))]
           else [ESystem beep_command; ESystem display_error_command]),
     inr tt).
Proof.
  intros H Hr. rewrite query_llm_query_with.
  rewrite <- (titles_have_no_quotes (current_mode self) text).
  destruct (build_prompt (current_mode self) text) as [prompt title].
  rewrite (query_with_answers model prompt title r t H Hr).
  rewrite show_result_trace. reflexivity.
Qed.

(** X13. When the model answers, [query_llm] performs the one call and
    then hands one dialog command to [os.system]: the dialog shows the
    answer without its leading and trailing white space, quotes escaped,
    under the title of the current mode, even when the trimmed answer is
    empty.  When [os.system] refuses the command (a NUL or a surrogate
    that cannot be encoded in the answer), the beep and the fixed
    display-error notification are issued instead.  In both cases
    [query_llm] returns normally. *)
Theorem answer_is_trimmed_and_shown_in_one_dialog
  (model : Model) (self : App) (text : pystr) (r : Response) (t : pystr) :
  model (fst (build_prompt (current_mode self) text)) = inr r ->
  response_text r = inr t ->
  query_llm model self text
  = (EGenerate (fst (build_prompt (current_mode self) text))
       :: (if accepted
                (dialog_command (escape_quotes (strip t))
                   (snd (build_prompt (current_mode self) text)))
           then [ESystem
                   (dialog_command (escape_quotes (strip t))
                      (snd (build_prompt (current_mode self) text)))]
           else [ESystem beep_command; ESystem display_error_command]),
     inr tt).
Proof. apply query_llm_answers. Qed.

Lemma answer_is_trimmed_and_shown_in_one_dialog_witness :
  query_llm constant_model fresh_app (u "hello")
  = (EGenerate (fst (build_prompt (current_mode fresh_app) (u "hello")))
       :: (if accepted
                (dialog_command
                   (escape_quotes (strip ([32; 10] ++ u "a 'b'" ++ [10])%N))
                   (snd (build_prompt (current_mode fresh_app) (u "hello"))))
           then [ESystem
                   (dialog_command
                      (escape_quotes
                         (strip ([32; 10] ++ u "a 'b'" ++ [10])%N))
                      (snd (build_prompt (current_mode fresh_app)
                              (u "hello"))))]
           else [ESystem beep_command; ESystem display_error_command]),
     inr tt).
Proof.
  apply (answer_is_trimmed_and_shown_in_one_dialog constant_model fresh_app
           (u "hello")
           (mkResponse (inr ([32; 10] ++ u "a 'b'" ++ [10])%N))).
  - reflexivity.
  - reflexivity.
Defined.

Lemma no_generate_among_system_events (l : list pystr) (prompt : pystr) :
  EGenerate prompt ∉ map ESystem l.
Proof.
  intros (c & Hc & _)%list_elem_of_fmap. discriminate Hc.
Qed.

Lemma query_llm_clean_error
  (model : Model) (self : App) (text : pystr) (e : exn) :
  inference_raises model (fst (build_prompt (current_mode self) text)) e ->
  clean e ->
  query_llm model self text
  = ([EGenerate (fst (build_prompt (current_mode self) text));
      ESystem beep_command;
      ESystem
        (notification_command
           (u "処理中にエラーが発生しました: " ++ escape_quotes e)
           (u "エラー"))],
     inr tt).
Proof.
  intros H Hc. rewrite query_llm_query_with.
  destruct (build_prompt (current_mode self) text) as [prompt title].
  simpl in H. rewrite (query_with_raises model prompt title e H).
  rewrite show_notification_trace
    by (apply error_notification_accepted; by apply clean_accepted).
  rewrite <- escape_quotes_app. reflexivity.
Qed.

(** X14. Whatever the model does, [query_llm] calls the model exactly
    once, as its first action, with the prompt of the current mode.  It
    returns normally whenever the model answers, and whenever the
    inference raises with a message that holds no NUL and no surrogate
    code point. *)
Theorem query_llm_calls_the_model_exactly_once
  (model : Model) (self : App) (text : pystr) :
  (exists rest out,
     query_llm model self text
     = (EGenerate (fst (build_prompt (current_mode self) text)) :: rest,
        out)
     /\ forall prompt, EGenerate prompt ∉ rest)
  /\ (forall r t,
        model (fst (build_prompt (current_mode self) text)) = inr r ->
        response_text r = inr t ->
        outcome (query_llm model self text) = inr tt)
  /\ (forall e,
        inference_raises model
          (fst (build_prompt (current_mode self) text)) e ->
        clean e ->
        outcome (query_llm model self text) = inr tt).
Proof.
  split; [| split].
  - assert (Hraise : forall e,
      inference_raises model (fst (build_prompt (current_mode self) text)) e ->
      exists rest out,
        query_llm model self text
        = (EGenerate (fst (build_prompt (current_mode self) text)) :: rest,
           out)
        /\ forall p, EGenerate p ∉ rest).
    { intros e He. rewrite query_llm_query_with.
      destruct (build_prompt (current_mode self) text) as [prompt title].
      simpl in He. do 2 eexists.
      split; [by apply query_with_raises |].
      rewrite show_notification_events. intros p.
      destruct (accepted _).
      - apply (no_generate_among_system_events [_; _]).
      - apply (no_generate_among_system_events [_]). }
    destruct (model (fst (build_prompt (current_mode self) text)))
      as [e | r] eqn:E.
    { apply (Hraise e). by left. }
    destruct (response_text r) as [e | t] eqn:Er.
    { apply (Hraise e). right. eauto. }
    do 2 eexists. split; [by apply query_llm_answers with r |].
    intros p. destruct (accepted _).
    + apply (no_generate_among_system_events [_]).
    + apply (no_generate_among_system_events [_; _]).
  - intros r t H Hr. by rewrite (query_llm_answers model self text r t H Hr).
  - intros e He Hc. by rewrite (query_llm_clean_error model self text e He Hc).
Qed.

Lemma query_llm_calls_the_model_exactly_once_witness :
  outcome (query_llm failing_model fresh_app (u "hello")) = inr tt.
Proof.
  apply (proj2 (proj2 (query_llm_calls_the_model_exactly_once
                         failing_model fresh_app (u "hello")))
           (u "503 'unavailable'")).
  - left. reflexivity.
  - unfold clean. by_computation.
Defined.

(** X15. A whole action that succeeds: with a clipboard that holds more
    than white space and a model that answers, the action is the copy
    chord, the wait and the read, one thread, one call of the model whose
    prompt is built from the trimmed selection, and one dialog command
    with the trimmed answer (or, when [os.system] refuses that command,
    the beep and the fixed display-error notification). *)
Theorem successful_action_end_to_end
  (model : Model) (self : App) (clip : pystr) (r : Response) (t : pystr) :
  ~ all_space clip ->
  model (fst (build_prompt (current_mode self) (strip clip))) = inr r ->
  response_text r = inr t ->
  run_action model self (inr clip)
  = copy_events
      ++ [EThread (query_llm_target (strip clip));
          EGenerate (fst (build_prompt (current_mode self) (strip clip)))]
      ++ (if accepted
               (dialog_command (escape_quotes (strip t))
                  (snd (build_prompt (current_mode self) (strip clip))))
          then [ESystem
                  (dialog_command (escape_quotes (strip t))
                     (snd (build_prompt (current_mode self) (strip clip))))]
          else [ESystem beep_command; ESystem display_error_command]).
Proof.
  intros Hc Hm Hr. rewrite <- strip_nil_iff in Hc.
  unfold run_action.
  rewrite process_text_pasted, bool_decide_eq_false_2 by done.
  unfold trace at 1 2. simpl fst.
  cbn [flat_map run_thread app].
  rewrite (query_llm_answers model self (strip clip) r t Hm Hr).
  unfold trace. simpl fst. rewrite app_nil_r. reflexivity.
Qed.

Lemma successful_action_end_to_end_witness :
  run_action constant_model fresh_app (inr padded_clipboard)
  = copy_events
      ++ [EThread (query_llm_target (strip padded_clipboard));
          EGenerate (fst (build_prompt (current_mode fresh_app)
                            (strip padded_clipboard)))]
      ++ (if accepted
               (dialog_command
                  (escape_quotes (strip ([32; 10] ++ u "a 'b'" ++ [10])%N))
                  (snd (build_prompt (current_mode fresh_app)
                          (strip padded_clipboard))))
          then [ESystem
                  (dialog_command
                     (escape_quotes
                        (strip ([32; 10] ++ u "a 'b'" ++ [10])%N))
                     (snd (build_prompt (current_mode fresh_app)
                             (strip padded_clipboard))))]
          else [ESystem beep_command; ESystem display_error_command]).
Proof.
  apply (successful_action_end_to_end constant_model fresh_app
           padded_clipboard
           (mkResponse (inr ([32; 10] ++ u "a 'b'" ++ [10])%N))).
  - unfold all_space, padded_clipboard. by_computation.
  - reflexivity.
  - reflexivity.
Defined.

(* ===================================================================== *)
(** * Further properties of the presenter and of start-up *)
(* ===================================================================== *)

Lemma escape_char_quote (c : N) :
  is_quote c = true -> escape_char c = [BACKSLASH; c].
Proof.
  unfold is_quote, escape_char.
  destruct (c =? DQUOTE)%N eqn:E1.
  { apply N.eqb_eq in E1. by rewrite E1. }
  destruct (c =? SQUOTE)%N eqn:E2.
  { apply N.eqb_eq in E2. by rewrite E2. }
  discriminate.
Qed.

Lemma escape_char_other (c : N) :
  is_quote c = false -> escape_char c = [c].
Proof.
  unfold is_quote, escape_char. intros H.
  apply orb_false_iff in H as [-> ->]. reflexivity.
Qed.

(** X16. In an escaped value no quote stands unguarded: every double or
    single quote of [escape_quotes s] has a backslash right before it. *)
Theorem every_quote_is_preceded_by_a_backslash
  (s : pystr) (i : nat) (q : N) :
  is_quote q = true ->
  escape_quotes s !! i = Some q ->
  exists j, i = S j /\ escape_quotes s !! j = Some BACKSLASH.
Proof.
  intros Hq. revert i. induction s as [| c r IH]; intros i H.
  - change (escape_quotes []) with (@nil N) in H.
    by rewrite lookup_nil in H.
  - rewrite escape_quotes_cons in *.
    destruct (is_quote c) eqn:Ec.
    + rewrite (escape_char_quote c Ec) in *.
      destruct i as [| [| i]]; cbn in H |- *.
      * injection H as <-. discriminate Hq.
      * exists 0%nat. done.
      * destruct (IH i H) as (j & -> & Hj). exists (S (S j)). done.
    + rewrite (escape_char_other c Ec) in *.
      destruct i as [| i]; cbn in H |- *.
      * injection H as <-. congruence.
      * destruct (IH i H) as (j & -> & Hj). exists (S j). done.
Qed.

Lemma every_quote_is_preceded_by_a_backslash_witness :
  exists j, 3%nat = S j
            /\ escape_quotes (u "it's") !! j = Some BACKSLASH.
Proof.
  apply (every_quote_is_preceded_by_a_backslash (u "it's") 3 SQUOTE).
  - reflexivity.
  - reflexivity.
Defined.

Lemma count_quotes_cons (c : N) (r : pystr) :
  count_quotes (c :: r)
  = ((if is_quote c then 1 else 0) + count_quotes r)%nat.
Proof.
  unfold count_quotes. rewrite filter_cons.
  destruct (is_quote c); case_decide; done.
Qed.

Lemma escape_quotes_length (s : pystr) :
  length (escape_quotes s) = (length s + count_quotes s)%nat.
Proof.
  induction s as [| c r IH]; [reflexivity |].
  rewrite escape_quotes_cons, length_app, IH, count_quotes_cons.
  destruct (is_quote c) eqn:Ec.
  - rewrite (escape_char_quote c Ec). simpl. lia.
  - rewrite (escape_char_other c Ec). simpl. lia.
Qed.

(** X17. Escaping adds exactly one character per quote and nothing else:
    the escaped value is as long as the argument plus its number of
    quotes, and it is the argument itself exactly when the argument has no
    quote.  (A backslash of the argument is passed on as it is.) *)
Theorem escaping_adds_one_character_per_quote (s : pystr) :
  length (escape_quotes s) = (length s + count_quotes s)%nat
  /\ (escape_quotes s = s <-> count_quotes s = 0%nat)
  /\ escape_quotes (BACKSLASH :: s) = BACKSLASH :: escape_quotes s.
Proof.
  split; [apply escape_quotes_length |]. split; [| reflexivity].
  split.
  - intros H. apply (f_equal length) in H.
    rewrite escape_quotes_length in H. lia.
  - induction s as [| c r IH]; [reflexivity |].
    rewrite count_quotes_cons, escape_quotes_cons.
    destruct (is_quote c) eqn:Ec; [simpl; lia |].
    simpl. intros H. rewrite (escape_char_other c Ec), (IH H). reflexivity.
Qed.



(** X19. The mode is read when [query_llm] runs, not when the action was
    triggered: a switch from the menu between the trigger and the query
    decides the template.  After [get_meaning] followed by
    [switch_to_translate_mode] the query is the translate one (and the
    other way round); the switch itself shows one notification without
    beep and leaves the held and the required modifiers as they were. *)
Theorem menu_switch_decides_the_next_query
  (model : Model) (self : App) (clipboard : exn + pystr) (text : pystr) :
  query_llm model
    (fst (switch_to_translate_mode (fst (get_meaning self clipboard)))) text
  = query_with model
      (translate_head ++ text ++ translate_tail, u "翻訳結果と類似表現")
  /\ query_llm model
       (fst (switch_to_meaning_mode (fst (get_translation self clipboard))))
       text
     = query_with model
         (meaning_head ++ text ++ meaning_tail, u "テキストの要約")
  /\ snd (switch_to_translate_mode self)
     = ([ESystem
           (notification_command
              (u "翻訳モードに切り替えました") (u "モード切替"))],
        inr tt)
  /\ snd (switch_to_meaning_mode self)
     = ([ESystem
           (notification_command
              (u "意味解析モードに切り替えました") (u "モード切替"))],
        inr tt)
  /\ current_modifiers (fst (switch_to_translate_mode self))
     = current_modifiers self
  /\ required_modifiers (fst (switch_to_translate_mode self))
     = required_modifiers self.
Proof.
  repeat split; try reflexivity; apply query_llm_query_with.
Qed.

(** X20. The release of a key that is not a special key (a [KeyCode],
    trigger keys included, or an unknown key) changes nothing: such a key
    is never in the held set. *)
Theorem release_of_character_key_changes_nothing
  (cfg : Config) (evs : list input) (c : keyboard.KeyCode) :
  on_key_release (run cfg evs) (KCode c) = run cfg evs
  /\ on_key_release (run cfg evs) KNone = run cfg evs.
Proof.
  assert (H : forall k, (forall s, k <> KKey s) ->
                        on_key_release (run cfg evs) k = run cfg evs).
  { intros k Hk. unfold on_key_release.
    destruct (is_special_event k); [done |].
    case_decide as Hin; [| done].
    rewrite run_current in Hin. apply elem_of_intersection in Hin as [Hin _].
    apply required_is_Key in Hin as [s ->]. by destruct (Hk s). }
  split; apply H; discriminate.
Qed.

(* ===================================================================== *)
(** * Further properties of error reporting *)
(* ===================================================================== *)

(** X21. When the inference raises with a message that holds no NUL and
    no surrogate code point, [query_llm] performs exactly: the one call of
    the model, the beep, and one notification titled as an error whose
    message is the fixed prefix followed by the message of the exception
    with its quotes escaped.  No dialog command is issued, the call is not
    repeated, and [query_llm] returns normally. *)
Theorem clean_inference_error_is_reported_once
  (model : Model) (self : App) (text : pystr) (e : exn) :
  inference_raises model (fst (build_prompt (current_mode self) text)) e ->
  clean e ->
  query_llm model self text
  = ([EGenerate (fst (build_prompt (current_mode self) text));
      ESystem beep_command;
      ESystem
        (notification_command
           (u "処理中にエラーが発生しました: " ++ escape_quotes e)
           (u "エラー"))],
     inr tt)
  /\ (forall m t,
        ESystem (dialog_command m t) ∉ trace (query_llm model self text)).
Proof.
  intros H Hc.
  rewrite (query_llm_clean_error model self text e H Hc).
  split; [reflexivity |].
  intros m t Hin. unfold trace in Hin. cbn [fst] in Hin.
  apply elem_of_cons in Hin as [Hin | Hin]; [discriminate Hin |].
  apply elem_of_cons in Hin as [Hin | Hin].
  { apply ESystem_inj in Hin. by apply dialog_is_not_beep in Hin. }
  apply elem_of_cons in Hin as [Hin | Hin].
  { apply ESystem_inj in Hin. by apply dialog_is_not_notification in Hin. }
  by apply elem_of_nil in Hin.
Qed.

Lemma clean_inference_error_is_reported_once_witness :
  query_llm failing_model fresh_app (u "hello")
  = ([EGenerate (fst (build_prompt (current_mode fresh_app) (u "hello")));
      ESystem beep_command;
      ESystem
        (notification_command
           (u "処理中にエラーが発生しました: "
              ++ escape_quotes (u "503 'unavailable'"))
           (u "エラー"))],
     inr tt).
Proof.
  apply (clean_inference_error_is_reported_once failing_model fresh_app
           (u "hello") (u "503 'unavailable'")).
  - left. reflexivity.
  - unfold clean. by_computation.
Defined.

